(** * MET predictor: label mapping, window segmentation, feature extraction
    and the classifier wrapper, embedded from the Python sources.

    Python floats and NumPy float64 values are IEEE-754 binary64 numbers;
    they are modelled by [spec_float] with precision 53 and exponent bound
    1024, on which the arithmetic of the Standard Library computes. *)

From Stdlib Require Import ZArith QArith Qpower Qabs Lia Lqa List Bool Ascii String.
From Stdlib Require Import SpecFloat DecimalString DecimalZ.
From stdpp Require Import base option list gmap strings.

Local Open Scope Z_scope.

(** ** Exceptions and results *)

Inductive exn :=
| ValueError (msg : string)
| KeyError
| TypeError
| IndexError
| FileNotFoundError (path : string).

Inductive result (A : Type) :=
| Ok (a : A)
| Raise (e : exn).
Arguments Ok {A} a.
Arguments Raise {A} e.

Global Instance result_ret : MRet result := fun A a => Ok a.

Global Instance result_bind : MBind result := fun A B k r =>
  match r with
  | Ok a => k a
  | Raise e => Raise e
  end.

(** ** binary64 *)

Module Float64.

Definition prec : Z := 53.
Definition emax : Z := 1024.

Definition add := SFadd prec emax.
Definition sub := SFsub prec emax.
Definition mul := SFmul prec emax.
Definition div := SFdiv prec emax.
Definition sqrt := SFsqrt prec emax.
Definition ltb := SFltb.
Definition leb := SFleb.
Definition eqb := SFeqb.

Definition nan : spec_float := S754_nan.
Definition zero : spec_float := S754_zero false.

(** The float nearest to an integer. *)
Definition of_Z (z : Z) : spec_float := binary_normalize prec emax z 0 false.

(** A decimal literal [m / 10^k]; one correctly rounded division of two
    exactly representable integers (for [|m| < 2^53] and [k <= 22]). *)
Definition lit (m : Z) (k : Z) : spec_float := div (of_Z m) (of_Z (10 ^ k)).

Definition one : spec_float := of_Z 1.

Definition is_nan (x : spec_float) : bool :=
  match x with S754_nan => true | _ => false end.

(** Neither NaN nor an infinity: a real number. *)
Definition is_finite (x : spec_float) : bool :=
  match x with S754_zero _ | S754_finite _ _ _ => true | _ => false end.


(** A well-formed binary64 datum (canonical mantissa and exponent). *)
Definition valid (x : spec_float) : bool := valid_binary prec emax x.

(** [x != 0] on floats: true on NaN as well. *)
Definition nonzero (x : spec_float) : bool := negb (eqb x zero).

(** Finite and below [2^B] in absolute value. *)
Definition below (B : Z) (x : spec_float) : bool :=
  match x with
  | S754_zero _ => true
  | S754_finite _ m e => Zpos (digits2_pos m) + e <=? B
  | _ => false
  end.


(** The real number a finite float denotes. *)
Definition to_Q (x : spec_float) : Q :=
  match x with
  | S754_finite s m e => (inject_Z (cond_Zopp s (Zpos m)) * 2 ^ e)%Q
  | _ => 0%Q
  end.

End Float64.

(** ** Label mapper ([wisdm_processor.py]) *)

(** [WISDMDataProcessor.get_met_class] *)
Definition get_met_class (met_value : spec_float) : Z :=
  if Float64.ltb met_value (Float64.lit 15 1) then 0
  else if Float64.ltb met_value (Float64.lit 30 1) then 1
  else if Float64.ltb met_value (Float64.lit 60 1) then 2
  else 3.

(** The rows of the data frame: the six WISDM columns. *)
Record sample := {
  user : Z;
  activity : string;
  timestamp : Z;
  col_x : spec_float;
  col_y : spec_float;
  col_z : spec_float
}.

(** A row once the columns [met_value] and [met_class] are added. *)
Record labelled := {
  row :> sample;
  met_value : spec_float;
  met_class : Z
}.

(** [self.activity_met_mapping] *)
Definition activity_met_mapping : gmap string spec_float :=
  list_to_map [
    ("Walking"%string, Float64.lit 30 1);
    ("Jogging"%string, Float64.lit 70 1);
    ("Running"%string, Float64.lit 80 1);
    ("Upstairs"%string, Float64.lit 40 1);
    ("Downstairs"%string, Float64.lit 35 1);
    ("Sitting"%string, Float64.lit 10 1);
    ("Standing"%string, Float64.lit 12 1);
    ("SlowWalk"%string, Float64.lit 25 1)
  ].

(** [Series.map(dict)]: a key that is absent from the dict gives NaN. *)
Definition series_map (mapping : gmap string spec_float) (key : string) : spec_float :=
  match mapping !! key with
  | Some v => v
  | None => Float64.nan
  end.

(** The two labelling statements of [load_and_process_data] (and of
    [create_synthetic_data]):
      df['met_value'] = df['activity'].map(self.activity_met_mapping)
      df['met_class'] = df['met_value'].apply(self.get_met_class) *)
Definition add_met_columns (mapping : gmap string spec_float) (df : list sample)
  : list labelled :=
  map (fun r =>
         let v := series_map mapping (activity r) in
         {| row := r; met_value := v; met_class := get_met_class v |}) df.

(** ** Window segmenter ([scripts/train_model.py]) *)

(** [Series.unique()]: the distinct values in order of first appearance. *)
Fixpoint unique_from {A} `{EqDecision A} (seen : list A) (l : list A) : list A :=
  match l with
  | [] => []
  | a :: t =>
      if decide (a ∈ seen) then unique_from seen t
      else a :: unique_from (a :: seen) t
  end.

Definition unique {A} `{EqDecision A} (l : list A) : list A := unique_from [] l.

(** [range(start, stop, step)]: the loop of the iterator, bounded by the
    distance still to cover. *)
Fixpoint range_up (fuel : nat) (i stop step : Z) : list Z :=
  match fuel with
  | O => []
  | S fuel' => if i <? stop then i :: range_up fuel' (i + step) stop step else []
  end.

Fixpoint range_down (fuel : nat) (i stop step : Z) : list Z :=
  match fuel with
  | O => []
  | S fuel' => if stop <? i then i :: range_down fuel' (i + step) stop step else []
  end.

Definition py_range (start stop step : Z) : result (list Z) :=
  if step =? 0 then Raise (ValueError "range() arg 3 must not be zero")
  else if 0 <? step then Ok (range_up (Z.to_nat (stop - start)) start stop step)
  else Ok (range_down (Z.to_nat (start - stop)) start stop step).

(** A slice bound of Python: negative bounds count from the end, and every
    bound is clipped to the sequence. *)
Definition clip_index (len i : Z) : Z :=
  if i <? 0 then Z.max 0 (i + len) else Z.min i len.

(** [data.iloc[start:stop]] *)
Definition iloc {A} (data : list A) (start stop : Z) : list A :=
  let len := Z.of_nat (length data) in
  let s := clip_index len start in
  let e := clip_index len stop in
  take (Z.to_nat (e - s)) (drop (Z.to_nat s) data).

(** The windows cut from one (user, activity) group: the body of
      for i in range(0, len(activity_data) - window_size + 1, window_size//2):
          window = activity_data.iloc[i:i+window_size]
          if len(window) == window_size: ... *)
Definition group_windows {A} (activity_data : list A) (window_size : Z)
  : result (list (list A)) :=
  starts ← py_range 0 (Z.of_nat (length activity_data) - window_size + 1) (window_size / 2);
  Ok (filter (fun window => Z.of_nat (length window) = window_size)
        (map (fun i => iloc activity_data i (i + window_size)) starts)).

(** The groups, in the order of the two nested loops over
    [df['user'].unique()] and [user_data['activity'].unique()]. *)
Definition groups (df : list labelled) : list (list labelled) :=
  flat_map (fun u =>
    let user_data := filter (fun r : labelled => user r = u) df in
    map (fun a => filter (fun r : labelled => activity r = a) user_data)
      (unique (map (fun r : labelled => activity r) user_data)))
    (unique (map (fun r : labelled => user r) df)).

(** [mapM] over results: the first exception aborts the loop. *)
Fixpoint traverse {A B} (f : A -> result B) (l : list A) : result (list B) :=
  match l with
  | [] => Ok []
  | a :: t => b ← f a; bs ← traverse f t; Ok (b :: bs)
  end.

(** All windows of the data frame, group after group.  [range] is the only
    statement of the segmentation that can raise, and whether it does depends
    on [window_size] alone, so that cutting all windows before extracting any
    feature raises what the interleaved loops raise. *)
Definition frame_windows (df : list labelled) (window_size : Z)
  : result (list (list labelled)) :=
  wss ← traverse (fun g => group_windows g window_size) (groups df);
  Ok (concat wss).

(** [window['met_class'].iloc[0]] *)
Definition first_label (window : list labelled) : result Z :=
  match window with
  | r :: _ => Ok (met_class r)
  | [] => Raise IndexError
  end.

(** The three columns handed to the extractor. *)
Record accel_data := {
  ax : list spec_float;
  ay : list spec_float;
  az : list spec_float
}.

Definition accel_of_window (window : list labelled) : accel_data :=
  {| ax := map (fun r : labelled => col_x r) window;
     ay := map (fun r : labelled => col_y r) window;
     az := map (fun r : labelled => col_z r) window |}.

(** [create_features_from_dataframe]; the extractor is its argument. *)
Definition create_features_from_dataframe (df : list labelled)
    (extract_features : accel_data -> result (list spec_float)) (window_size : Z)
  : result (list (list spec_float) * list Z) :=
  windows ← frame_windows df window_size;
  rows ← traverse (fun window =>
            feature_vector ← extract_features (accel_of_window window);
            label ← first_label window;
            Ok (feature_vector, label)) windows;
  Ok (map fst rows, map snd rows).

(** ** Feature extractor ([feature_extractor.py]) on NumPy arrays *)

Module np.
Import Float64.

(** Element-wise binary operation on two one-dimensional arrays, with
    NumPy's broadcasting of an array of length 1. *)
Definition broadcast (op : spec_float -> spec_float -> spec_float)
    (a b : list spec_float) : result (list spec_float) :=
  if decide (length a = length b) then Ok (zip_with op a b)
  else match a, b with
       | [a0], _ => Ok (map (op a0) b)
       | _, [b0] => Ok (map (fun ai => op ai b0) a)
       | _, _ => Raise (ValueError "operands could not be broadcast together")
       end.

(** [a**2]: the square of each element. *)
Definition square (a : list spec_float) : list spec_float :=
  map (fun v => mul v v) a.

(** [np.sum]: accumulation from 0.0, left to right.  (NumPy adds long arrays
    pairwise, in blocks; that order of the additions is not modelled.) *)
Definition sum (a : list spec_float) : spec_float := fold_left add a zero.

Definition count (a : list spec_float) : spec_float := of_Z (Z.of_nat (length a)).

(** [np.mean(a)]: the sum divided by the number of elements. *)
Definition mean (a : list spec_float) : spec_float := div (sum a) (count a).

(** [np.std(a)] with [ddof = 0]: the root of the mean squared deviation
    from the mean. *)
Definition std (a : list spec_float) : spec_float :=
  let arrmean := mean a in
  let x := map (fun v => sub v arrmean) a in
  let x := zip_with mul x x in
  sqrt (div (sum x) (count a)).

(** [np.minimum] and [np.maximum] propagate NaN. *)
Definition minimum (a b : spec_float) : spec_float :=
  if is_nan a then a else if ltb a b then a else b.

Definition maximum (a b : spec_float) : spec_float :=
  if is_nan a then a else if ltb b a then a else b.

(** [np.min], [np.max]: no identity, an empty array is an error. *)
Definition min (a : list spec_float) : result spec_float :=
  match a with
  | [] => Raise (ValueError "zero-size array to reduction operation minimum which has no identity")
  | a0 :: t => Ok (fold_left minimum t a0)
  end.

Definition max (a : list spec_float) : result spec_float :=
  match a with
  | [] => Raise (ValueError "zero-size array to reduction operation maximum which has no identity")
  | a0 :: t => Ok (fold_left maximum t a0)
  end.

(** [np.sign]: -1, 0 or 1, and NaN on NaN. *)
Definition sign (v : spec_float) : spec_float :=
  if ltb zero v then one
  else if ltb v zero then SFopp one
  else if eqb v zero then zero
  else v.

(** [np.diff(a)]: [a[i+1] - a[i]]. *)
Fixpoint diff (a : list spec_float) : list spec_float :=
  match a with
  | v0 :: (v1 :: _) as t => sub v1 v0 :: diff t
  | _ => []
  end.

(** [np.sum(b != 0)]: the number of entries that are not zero. *)
Definition count_nonzero (a : list spec_float) : Z :=
  Z.of_nat (length (filter (fun v => nonzero v = true) a)).

(** Sorting as [np.sort] orders floats: increasing, NaN last. *)
Definition sort_le (a b : spec_float) : bool :=
  if is_nan b then true else if is_nan a then false else leb a b.

Fixpoint insert_sorted (v : spec_float) (l : list spec_float) : list spec_float :=
  match l with
  | [] => [v]
  | h :: t => if sort_le v h then v :: l else h :: insert_sorted v t
  end.

Definition sort (a : list spec_float) : list spec_float :=
  fold_right insert_sorted [] a.

(** The linear interpolation of [np.percentile]. *)
Definition lerp (a b t : spec_float) : spec_float :=
  let diff_b_a := sub b a in
  if leb (lit 5 1) t then sub b (mul diff_b_a (sub one t))
  else add a (mul diff_b_a t).

(** [np.percentile(a, q)], method 'linear': the value at the fractional index
    [(n - 1) * q / 100] of the sorted array, between the entries at its
    integer part and the next one.  The index is split exactly, as the float
    computation does for the lengths and the integer [q] that occur. *)
Definition percentile (a : list spec_float) (q : Z) : spec_float :=
  let n := Z.of_nat (length a) in
  let arr := sort a in
  let previous_index := (n - 1) * q / 100 in
  let next_index := Z.min (previous_index + 1) (n - 1) in
  let gamma := lit ((n - 1) * q mod 100) 2 in
  if existsb is_nan a then nan
  else lerp (nth (Z.to_nat previous_index) arr nan) (nth (Z.to_nat next_index) arr nan) gamma.

End np.

(** The number of sign changes of [x - mean(x)] between neighbours:
      mean_x = np.mean(x)
      zero_crossings = np.sum(np.diff(np.sign(x - mean_x)) != 0) *)
Definition zero_crossings (x : list spec_float) : Z :=
  let mean_x := np.mean x in
  np.count_nonzero (np.diff (map np.sign (map (fun v => Float64.sub v mean_x) x))).

(** [sqrt(x**2 + y**2 + z**2)] *)
Definition magnitude_of (d : accel_data) : result (list spec_float) :=
  xy ← np.broadcast Float64.add (np.square (ax d)) (np.square (ay d));
  xyz ← np.broadcast Float64.add xy (np.square (az d));
  Ok (map Float64.sqrt xyz).

(** [METFeatureExtractor.extract_features].  The zero-crossing count is an
    integer in the returned list and becomes a float in the feature array. *)
Definition extract_features (d : accel_data) : result (list spec_float) :=
  let x := ax d in
  let y := ay d in
  let z := az d in
  magnitude ← magnitude_of d;
  min_magnitude ← np.min magnitude;
  max_magnitude ← np.max magnitude;
  Ok [ np.mean x; np.mean y; np.mean z; np.mean magnitude;
       np.std x; np.std y; np.std z; np.std magnitude;
       min_magnitude; max_magnitude;
       Float64.sqrt (np.mean (np.square x));
       Float64.sqrt (np.mean (np.square y));
       Float64.sqrt (np.mean (np.square z));
       Float64.of_Z (zero_crossings x);
       np.percentile magnitude 25;
       np.percentile magnitude 75 ].

(** [METFeatureExtractor.get_feature_names] *)
Definition get_feature_names : list string :=
  [ "mean_x"; "mean_y"; "mean_z"; "mean_magnitude";
    "std_x"; "std_y"; "std_z"; "std_magnitude";
    "min_magnitude"; "max_magnitude";
    "rms_x"; "rms_y"; "rms_z";
    "zero_crossings_x";
    "magnitude_p25"; "magnitude_p75" ]%string.




(** ** Classifier wrapper ([models/met_predictor.py]) *)

(** *** The fitted scikit-learn objects

    The wrapper stores two objects of scikit-learn, which is not part of the
    repository.  They are modelled by what a fitted object computes: the
    scaler by its two vectors, the forest by its decision trees, whose leaves
    hold the class weights of the training samples that reached them.
    Probabilities are exact rationals; the rounding of scikit-learn's
    averaging is not modelled. *)

Record StandardScaler := {
  mean_ : list spec_float;
  scale_ : list spec_float
}.

(** [scaler.transform]: [(x - mean_) / scale_]. *)
Definition scaler_transform (s : StandardScaler) (features : list spec_float)
  : result (list spec_float) :=
  if decide (length features = length (mean_ s)) then
    Ok (zip_with Float64.div (zip_with Float64.sub features (mean_ s)) (scale_ s))
  else Raise (ValueError "X has a different number of features than StandardScaler is expecting").

Inductive tree :=
| Leaf (value : list Q)
| Node (feature : nat) (threshold : spec_float) (children_left children_right : tree).

Record RandomForestClassifier := {
  classes_ : list Z;
  estimators_ : list tree;
  n_features_in_ : nat
}.

Fixpoint tree_apply (t : tree) (x : list spec_float) : list Q :=
  match t with
  | Leaf value => value
  | Node feature threshold children_left children_right =>
      if Float64.leb (nth feature x Float64.nan) threshold
      then tree_apply children_left x else tree_apply children_right x
  end.

Definition Qsum (l : list Q) : Q := fold_right Qplus 0%Q l.

(** The class distribution of the leaf, normalised. *)
Definition tree_predict_proba (t : tree) (x : list spec_float) : list Q :=
  let value := tree_apply t x in
  let normalizer := Qsum value in
  let normalizer := if Qeq_bool normalizer 0 then 1%Q else normalizer in
  map (fun v => (v / normalizer)%Q) value.

(** The mean of the distributions of the trees. *)
Definition forest_predict_proba (m : RandomForestClassifier) (x : list spec_float)
  : result (list Q) :=
  if decide (length x = n_features_in_ m) then
    let all_proba :=
      fold_left (fun acc t => zip_with Qplus acc (tree_predict_proba t x))
        (estimators_ m) (repeat 0%Q (length (classes_ m))) in
    Ok (map (fun p => (p / inject_Z (Z.of_nat (length (estimators_ m))))%Q) all_proba)
  else Raise (ValueError "X has a different number of features than the classifier is expecting").

(** [np.argmax]: the first index of a largest entry. *)
Fixpoint argmax_from (best : Q) (best_i i : nat) (l : list Q) : nat :=
  match l with
  | [] => best_i
  | q :: t =>
      if Qlt_le_dec best q then argmax_from q i (S i) t
      else argmax_from best best_i (S i) t
  end.

Definition argmax (l : list Q) : nat :=
  match l with
  | [] => O
  | q :: t => argmax_from q O 1 t
  end.

(** [np.max] on the probabilities. *)
Definition Qmax_list (l : list Q) : result Q :=
  match l with
  | [] => Raise (ValueError "zero-size array to reduction operation maximum which has no identity")
  | q :: t => Ok (fold_left (fun a b => if Qlt_le_dec a b then b else a) t q)
  end.

(** [model.predict]: the class at the arg-max of the probabilities. *)
Definition forest_predict (m : RandomForestClassifier) (x : list spec_float) : result Z :=
  proba ← forest_predict_proba m x;
  Ok (nth (argmax proba) (classes_ m) 0).




(** *** Python dicts, in insertion order *)

Definition dict_get {K V} `{EqDecision K} (d : list (K * V)) (k : K) : result V :=
  match find (fun kv => bool_decide (fst kv = k)) d with
  | Some kv => Ok (snd kv)
  | None => Raise KeyError
  end.

Fixpoint dict_set {K V} `{EqDecision K} (d : list (K * V)) (k : K) (v : V) : list (K * V) :=
  match d with
  | [] => [(k, v)]
  | kv :: t => if decide (fst kv = k) then (fst kv, v) :: t else kv :: dict_set t k v
  end.

(** *** The wrapper *)

Record METPredictor := {
  model : option RandomForestClassifier;
  scaler : option StandardScaler;
  feature_names : option (list string);
  met_classes : list (Z * string)
}.

(** [METPredictor.__init__] *)
Definition init : METPredictor :=
  {| model := None;
     scaler := None;
     feature_names := None;
     met_classes := [ (0, "Sedentary"); (1, "Light"); (2, "Moderate"); (3, "Vigorous") ]%string |}.

Record prediction := {
  predicted_class : Z;
  class_name : string;
  probabilities : list Q;
  confidence : Q
}.

Definition not_trained : exn := ValueError "Model not trained or loaded".

(** [METPredictor.predict] *)
Definition predict (self : METPredictor) (features : list spec_float) : result prediction :=
  match model self, scaler self with
  | Some m, Some s =>
      features_scaled ← scaler_transform s features;
      prediction ← forest_predict m features_scaled;
      probabilities ← forest_predict_proba m features_scaled;
      class_name ← dict_get (met_classes self) prediction;
      confidence ← Qmax_list probabilities;
      Ok {| predicted_class := prediction;
            class_name := class_name;
            probabilities := probabilities;
            confidence := confidence |}
  | _, _ => Raise not_trained
  end.

(** [METPredictor.train].  The three fitting procedures of scikit-learn are
    parameters.  A method that raises keeps the assignments to [self] made
    before the exception, so that a method returns the object and its
    outcome.  The printed report is left out, but not the look-up of the
    class names for it, which raises on a class without a name (the order of
    the names, sorted in the source, does not matter for that). *)
Section Train.

Variable train_test_split :
  list (list spec_float) -> list Z ->
  result (list (list spec_float) * list (list spec_float) * list Z * list Z).
Variable scaler_fit : list (list spec_float) -> StandardScaler.
Variable forest_fit : list (list spec_float) -> list Z -> RandomForestClassifier.

(** [accuracy_score]: the fraction of equal entries. *)
Definition accuracy_score (y_true y_pred : list Z) : Q :=
  (inject_Z (Z.of_nat (length (filter (fun p => fst p = snd p) (zip y_true y_pred))))
   / inject_Z (Z.of_nat (length y_true)))%Q.

Definition train (self : METPredictor) (X : list (list spec_float)) (y : list Z)
    (names : list string) : METPredictor * result Q :=
  match train_test_split X y with
  | Raise e => (self, Raise e)
  | Ok (X_train, X_test, y_train, y_test) =>
      let sc := scaler_fit X_train in
      let self := {| model := model self; scaler := Some sc;
                     feature_names := feature_names self;
                     met_classes := met_classes self |} in
      match traverse (scaler_transform sc) X_train with
      | Raise e => (self, Raise e)
      | Ok X_train_scaled =>
      match traverse (scaler_transform sc) X_test with
      | Raise e => (self, Raise e)
      | Ok X_test_scaled =>
          let m := forest_fit X_train_scaled y_train in
          let self := {| model := Some m; scaler := Some sc;
                         feature_names := Some names;
                         met_classes := met_classes self |} in
          (self,
           y_pred ← traverse (forest_predict m) X_test_scaled;
           let accuracy := accuracy_score y_test y_pred in
           let unique_classes := unique (y_test ++ y_pred) in
           target_names ← traverse (dict_get (met_classes self)) unique_classes;
           Ok accuracy)
      end
      end
  end.

End Train.

(** *** Persistence *)

(** How [json] writes and reads the integer keys of [met_classes]: as
    decimal strings.  (Of the strings that Python's [int] accepts, those made
    of an optional minus sign and digits are read.) *)
Definition py_str (z : Z) : string := NilZero.string_of_int (Z.to_int z).

Definition py_int (s : string) : result Z :=
  match NilZero.int_of_string s with
  | Some d => Ok (Z.of_int d)
  | None => Raise (ValueError "invalid literal for int() with base 10")
  end.

Record metadata := {
  md_feature_names : list string;
  md_met_classes : list (string * string);
  md_model_type : string;
  md_n_features : Z
}.

(** A file holds a pickled object (either of the two kinds, or [None]) or
    the JSON metadata. *)
Inductive file :=
| Pickle_model (m : option RandomForestClassifier)
| Pickle_scaler (s : option StandardScaler)
| Json (md : metadata).

(** [os.path.join(dir, name)] *)
Definition path_join (dir name : string) : string :=
  match dir with
  | EmptyString => name
  | _ => if String.eqb (String.substring (String.length dir - 1) 1 dir) "/"
         then dir ++ name else dir ++ "/" ++ name
  end%string.

(** [METPredictor.save_model]: the two pickles are written before the
    metadata is built, and [len(self.feature_names)] raises on [None]. *)
Definition save_model (self : METPredictor) (fs : gmap string file) (model_dir : string)
  : gmap string file * result unit :=
  let fs := <[path_join model_dir "met_model.pkl" := Pickle_model (model self)]> fs in
  let fs := <[path_join model_dir "scaler.pkl" := Pickle_scaler (scaler self)]> fs in
  match feature_names self with
  | None => (fs, Raise TypeError)
  | Some names =>
      let md := {| md_feature_names := names;
                   md_met_classes := map (fun kv => (py_str (fst kv), snd kv)) (met_classes self);
                   md_model_type := "RandomForestClassifier";
                   md_n_features := Z.of_nat (length names) |} in
      (<[path_join model_dir "model_metadata.json" := Json md]> fs, Ok tt)
  end.

(** [{int(k): v for k, v in metadata['met_classes'].items()}] *)
Definition int_keys (items : list (string * string)) : result (list (Z * string)) :=
  fold_left (fun acc kv => d ← acc; k ← py_int (fst kv); Ok (dict_set d k (snd kv)))
    items (Ok []).

(** [METPredictor.load_model]: each attribute is assigned as soon as its
    file is read. *)
Definition load_model (self : METPredictor) (fs : gmap string file) (model_dir : string)
  : METPredictor * result unit :=
  match fs !! path_join model_dir "met_model.pkl" with
  | Some (Pickle_model m) =>
      let self := {| model := m; scaler := scaler self;
                     feature_names := feature_names self; met_classes := met_classes self |} in
      match fs !! path_join model_dir "scaler.pkl" with
      | Some (Pickle_scaler s) =>
          let self := {| model := m; scaler := s;
                         feature_names := feature_names self; met_classes := met_classes self |} in
          match fs !! path_join model_dir "model_metadata.json" with
          | Some (Json md) =>
              let self := {| model := m; scaler := s;
                             feature_names := Some (md_feature_names md);
                             met_classes := met_classes self |} in
              match int_keys (md_met_classes md) with
              | Ok classes =>
                  ({| model := m; scaler := s;
                      feature_names := Some (md_feature_names md);
                      met_classes := classes |}, Ok tt)
              | Raise e => (self, Raise e)
              end
          | Some _ => (self, Raise TypeError)
          | None => (self, Raise (FileNotFoundError (path_join model_dir "model_metadata.json")))
          end
      | Some _ => (self, Raise TypeError)
      | None => (self, Raise (FileNotFoundError (path_join model_dir "scaler.pkl")))
      end
  | Some _ => (self, Raise TypeError)
  | None => (self, Raise (FileNotFoundError (path_join model_dir "met_model.pkl")))
  end.


(** ** Stability layer *)

(** The stability/voting layer is not among the Python sources, which hold no
    code that keeps a history of predictions; its definitions follow the
    words of the specification: "maintain the last N predictions (default
    N=3) and emit the majority class among them; ties break toward the most
    recent prediction". *)
Module Voting.

(** Modelled from the spec: the length of the history, the default N=3 (the
    layer itself is missing from the sources). *)
Definition N : nat := 3.

(** Modelled from the spec: "maintain the last N predictions"; the history
    after a prediction arrives, the oldest first (the layer itself is missing
    from the sources). *)
Definition push (history : list Z) (p : Z) : list Z :=
  let h := history ++ [p] in
  drop (length h - N) h.

(** Modelled from the spec: how often a class occurs among the kept
    predictions (the layer itself is missing from the sources). *)
Definition occurrences (c : Z) (h : list Z) : nat :=
  length (filter (fun p => p = c) h).

(** Modelled from the spec: "emit the majority class among them; ties break
    toward the most recent prediction" (the layer itself is missing from the
    sources).  The candidates are tried from the most recent prediction
    backwards and only a strictly larger count replaces the choice, so that a
    tie stays with the more recent one. *)
Definition majority (h : list Z) : Z :=
  match rev h with
  | [] => 0
  | newest :: older =>
      fold_left (fun best c => if (occurrences best h <? occurrences c h)%nat then c else best)
        older newest
  end.

(** Modelled from the spec: the filter run over a stream of predictions, one
    decision for each incoming prediction (the layer itself is missing from
    the sources). *)
Fixpoint smooth_from (history : list Z) (predictions : list Z) : list Z :=
  match predictions with
  | [] => []
  | p :: rest =>
      let h := push history p in
      majority h :: smooth_from h rest
  end.

(** Modelled from the spec: the filter started on an empty history (the layer
    itself is missing from the sources). *)
Definition smooth (predictions : list Z) : list Z := smooth_from [] predictions.

End Voting.

(** ** Reading the raw data ([wisdm_processor.py]) *)

(** Python strings are modelled by strings of characters below U+0100. *)

(** [sub in s] *)
Fixpoint contains (sub s : string) : bool :=
  String.prefix sub s ||
  match s with
  | EmptyString => false
  | String _ t => contains sub t
  end.

(** [s.endswith(suffix)] *)
Fixpoint endswith (s suffix : string) : bool :=
  String.eqb s suffix ||
  match s with
  | EmptyString => false
  | String _ t => endswith t suffix
  end.

(** The test of the search loop: ['WISDM' in file and file.endswith('.txt')]. *)
Definition wisdm_file (file : string) : bool :=
  contains "WISDM" file && endswith file ".txt".

(** The search for the data file in [load_and_process_data]:
      data_file = None
      for root, dirs, files in os.walk(self.raw_data_path):
          for file in files:
              if 'WISDM' in file and file.endswith('.txt'):
                  data_file = os.path.join(root, file)
                  break
    on the triples that [os.walk] yields.  The [break] leaves the loop over
    the files of one directory. *)
Definition find_data_file (walk : list (string * list string * list string)) : option string :=
  fold_left (fun data_file '(root, dirs, files) =>
               match find wisdm_file files with
               | Some file => Some (path_join root file)
               | None => data_file
               end) walk None.

(** [c.isspace()] *)
Definition isspace (c : ascii) : bool :=
  let n := nat_of_ascii c in
  ((9 <=? n) && (n <=? 13) || (28 <=? n) && (n <=? 32) || (n =? 133) || (n =? 160))%nat.

(** [s.lstrip] and [s.rstrip] of the characters that [strip] holds of. *)
Fixpoint lstrip_with (strip : ascii -> bool) (s : string) : string :=
  match s with
  | EmptyString => EmptyString
  | String c t => if strip c then lstrip_with strip t else s
  end.

Fixpoint rstrip_with (strip : ascii -> bool) (s : string) : string :=
  match s with
  | EmptyString => EmptyString
  | String c t =>
      match rstrip_with strip t with
      | EmptyString => if strip c then EmptyString else String c EmptyString
      | t' => String c t'
      end
  end.

(** [s.split(sep)] for a separator of one character: never an empty list. *)
Fixpoint split (sep : ascii) (s : string) : list string :=
  match s with
  | EmptyString => [EmptyString]
  | String c t =>
      if Ascii.eqb c sep then EmptyString :: split sep t
      else match split sep t with
           | part :: parts => String c part :: parts
           | [] => [String c EmptyString]
           end
  end.

(** The body of the loop over the lines, in the fallback reader of
    [load_and_process_data]:
      parts = line.strip().rstrip(';').split(',')
      if len(parts) >= 6:
          data.append(parts[:6]) *)
Definition parse_line (line : string) : option (list string) :=
  let parts :=
    split "," (rstrip_with (Ascii.eqb ";") (rstrip_with isspace (lstrip_with isspace line))) in
  if (6 <=? length parts)%nat then Some (take 6 parts) else None.

(** The loop over the lines. *)
Definition parse_lines (lines : list string) : list (list string) :=
  omap parse_line lines.

(** The number of occurrences of a character in a string. *)
Fixpoint count_char (c : ascii) (s : string) : nat :=
  match s with
  | EmptyString => O
  | String c' t => ((if Ascii.eqb c' c then 1 else 0) + count_char c t)%nat
  end.

(** ** The synthetic data set ([wisdm_processor.py]) *)

Section Synthetic.

(** NumPy's global random generator is a parameter: its states, the state
    that [np.random.seed] sets, and [np.random.normal(loc, scale)], which
    returns a number and the next state. *)
Variable generator : Type.
Variable seed : Z -> generator.
Variable normal : spec_float -> spec_float -> generator -> spec_float * generator.

Definition activities : list string :=
  [ "Sitting"; "Standing"; "SlowWalk"; "Walking"; "Jogging"; "Upstairs"; "Downstairs" ]%string.

(** The three statements of a branch:
      x = np.random.normal(0, scale)
      y = np.random.normal(0, scale)
      z = np.random.normal(9.8, scale) *)
Definition draw_xyz (scale : spec_float) (g : generator)
  : (spec_float * spec_float * spec_float) * generator :=
  let (x, g) := normal Float64.zero scale g in
  let (y, g) := normal Float64.zero scale g in
  let (z, g) := normal (Float64.lit 98 1) scale g in
  ((x, y, z), g).

(** The chain of [if] and [elif] on the activity.  It has no [else]: when
    no branch applies, x, y and z keep what they hold, and they hold nothing
    before the first assignment. *)
Definition draw_for (activity : string)
    (xyz : option (spec_float * spec_float * spec_float)) (g : generator)
  : option (spec_float * spec_float * spec_float) * generator :=
  if String.eqb activity "Sitting" then
    let (v, g) := draw_xyz (Float64.lit 5 1) g in (Some v, g)
  else if String.eqb activity "Standing" then
    let (v, g) := draw_xyz (Float64.lit 10 1) g in (Some v, g)
  else if String.eqb activity "SlowWalk" then
    let (v, g) := draw_xyz (Float64.lit 20 1) g in (Some v, g)
  else if String.eqb activity "Walking" then
    let (v, g) := draw_xyz (Float64.lit 30 1) g in (Some v, g)
  else if String.eqb activity "Jogging" then
    let (v, g) := draw_xyz (Float64.lit 60 1) g in (Some v, g)
  else if existsb (String.eqb activity) [ "Upstairs"; "Downstairs" ]%string then
    let (v, g) := draw_xyz (Float64.lit 40 1) g in (Some v, g)
  else (xyz, g).

(** The state of the loops: the rows appended so far, the values of x, y, z
    and the generator.  [None] stands for the UnboundLocalError of
    [data.append([user, activity, session, x, y, z])] when x, y, z hold
    nothing. *)
Definition session_step (activity : string) (user : Z)
    (st : option (list sample * option (spec_float * spec_float * spec_float) * generator))
    (session : Z)
  : option (list sample * option (spec_float * spec_float * spec_float) * generator) :=
  '(data, xyz, g) ← st;
  let (xyz, g) := draw_for activity xyz g in
  '(x, y, z) ← xyz;
  Some (data ++ [ {| user := user; activity := activity; timestamp := session;
                     col_x := x; col_y := y; col_z := z |} ],
        Some (x, y, z), g).

(** The three nested loops, over the activities, [range(1, 11)] and
    [range(100)], after [np.random.seed(42)]. *)
Definition synthetic_rows : option (list sample) :=
  st ← fold_left (fun st activity =>
          fold_left (fun st user =>
             fold_left (session_step activity user) (seqZ 0 100) st)
            (seqZ 1 10) st)
        activities (Some ([], None, seed 42));
  Some (st.1.1).

(** [create_synthetic_data]: the rows, labelled as in
    [load_and_process_data].  The copy of the frame that is written to a
    CSV file and the printed summary are left out. *)
Definition create_synthetic_data : option (list labelled) :=
  df ← synthetic_rows;
  Some (add_met_columns activity_met_mapping df).

End Synthetic.

(** *** The export for the mobile application *)

(** The two JSON files that [export_for_mobile] writes.  They are kept in a
    store of their own, beside the store of the pickles. *)
Inductive mobile_file :=
| Tree_params (n_estimators : Z) (max_depth : option Z)
    (feature_importances : list spec_float) (classes : list Z)
| Scaler_params (mean scale : list spec_float).

(** How [export_for_mobile] ends: it returns, or [self.scaler.mean_] raises
    AttributeError on [None]. *)
Inductive export_outcome :=
| Exported
| AttributeError (msg : string).

Section MobileExport.

(** The attributes of the forest that its trees do not determine here. *)
Variable n_estimators : RandomForestClassifier -> Z.
Variable max_depth : RandomForestClassifier -> option Z.
Variable feature_importances_ : RandomForestClassifier -> list spec_float.

(** [METPredictor.export_for_mobile]: [hasattr(self.model, 'estimators_')]
    holds of a fitted forest and not of [None]. *)
Definition export_for_mobile (self : METPredictor) (fs : gmap string mobile_file)
    (output_dir : string) : gmap string mobile_file * export_outcome :=
  let fs :=
    match model self with
    | Some m =>
        <[path_join output_dir "tree_params.json" :=
            Tree_params (n_estimators m) (max_depth m) (feature_importances_ m) (classes_ m)]> fs
    | None => fs
    end in
  match scaler self with
  | Some s =>
      (<[path_join output_dir "scaler_params.json" := Scaler_params (mean_ s) (scale_ s)]> fs,
       Exported)
  | None => (fs, AttributeError "'NoneType' object has no attribute 'mean_'")
  end.

End MobileExport.

(** ** Example data *)

Definition biking (t : Z) : sample :=
  {| user := 1; activity := "Biking"; timestamp := t;
     col_x := Float64.zero; col_y := Float64.zero; col_z := Float64.lit 98 1 |}.

(** A forest fitted on labels in which class 1 does not occur, as with the
    six WISDM activities (Sitting and Standing are class 0; Walking, Upstairs
    and Downstairs class 2; Jogging class 3): two trees that split on the
    scaled mean magnitude (feature 3) and on the scaled deviation of the
    magnitude (feature 7). *)
Definition wisdm_forest : RandomForestClassifier :=
  {| classes_ := [0; 2; 3];
     estimators_ :=
       [ Node 3 Float64.zero (Leaf [40; 2; 0]%Q) (Leaf [1; 30; 25]%Q);
         Node 7 Float64.one (Leaf [35; 20; 1]%Q) (Leaf [0; 5; 30]%Q) ];
     n_features_in_ := 16 |}.

Definition unit_scaler : StandardScaler :=
  {| mean_ := repeat Float64.zero 16; scale_ := repeat Float64.one 16 |}.

Definition wisdm_predictor : METPredictor :=
  {| model := Some wisdm_forest;
     scaler := Some unit_scaler;
     feature_names := Some get_feature_names;
     met_classes := met_classes init |}.

(** Stand-ins for the fitting procedures, to run [train]. *)
Definition whole_split (X : list (list spec_float)) (y : list Z)
  : result (list (list spec_float) * list (list spec_float) * list Z * list Z) :=
  Ok (X, X, y, y).

Definition const_scaler_fit (X : list (list spec_float)) : StandardScaler := unit_scaler.

Definition const_forest_fit (X : list (list spec_float)) (y : list Z) : RandomForestClassifier :=
  wisdm_forest.

(** The count of windows that the specification gives for a group of [len]
    rows: max(0, (L - W) // (W // 2) + 1). *)
Definition window_count (len window_size : Z) : nat :=
  Z.to_nat (Z.max 0 ((len - window_size) / (window_size / 2) + 1)).

(** * Theorems *)

(** [map] of the Standard Library is the list [fmap] of stdpp. *)
Lemma map_fmap {A B} (f : A -> B) (l : list A) : map f l = f <$> l.
Proof. induction l as [|a l IH]; [reflexivity|]. simpl. rewrite IH. reflexivity. Qed.

(** ** Facts about binary64 comparison *)

Module Float64Facts.
Import Float64.

Lemma digits2_pos_size (m : positive) : digits2_pos m = Pos.size m.
Proof. induction m as [m IH|m IH|]; simpl; rewrite ?IH; reflexivity. Qed.

Lemma digits2_upper (m : positive) : Zpos m < 2 ^ Zpos (digits2_pos m).
Proof.
  rewrite digits2_pos_size.
  pose proof (Pos.size_gt m) as H.
  apply Pos2Z.pos_lt_pos in H. rewrite Pos2Z.inj_pow in H. exact H.
Qed.

Lemma digits2_lower (m : positive) : 2 ^ Zpos (digits2_pos m) <= 2 * Zpos m.
Proof.
  rewrite digits2_pos_size.
  pose proof (Pos.size_le m) as H.
  apply Pos2Z.pos_le_pos in H. rewrite Pos2Z.inj_pow in H. exact H.
Qed.

(** What [bounded] says about a binary64 mantissa and exponent: a normal
    number has exactly 53 digits, a subnormal one sits at the least exponent. *)
Lemma bounded_inv (m : positive) (e : Z) :
  bounded prec emax m e = true ->
  Zpos (digits2_pos m) <= 53 /\ (e = -1074 \/ Zpos (digits2_pos m) = 53) /\
  -1074 <= e <= 971.
Proof.
  unfold bounded, canonical_mantissa, fexp, SpecFloat.emin, prec, emax.
  intros H. apply andb_prop in H as [H1 H2].
  apply Z.eqb_eq in H1. apply Z.leb_le in H2. lia.
Qed.

Lemma bounded_mantissa (m : positive) (e : Z) :
  bounded prec emax m e = true ->
  Zpos m < 2 ^ 53 /\ (-1074 < e -> 2 ^ 52 <= Zpos m).
Proof.
  intros H. destruct (bounded_inv _ _ H) as (Hd & Hc & He).
  pose proof (digits2_upper m) as Hu. pose proof (digits2_lower m) as Hl.
  split.
  - eapply Z.lt_le_trans; [exact Hu|]. apply Z.pow_le_mono_r; lia.
  - intros Hn. destruct Hc as [Hc|Hc]; [lia|]. rewrite Hc in Hl.
    change (2 ^ 53) with (2 * 2 ^ 52) in Hl. lia.
Qed.

Lemma pow2_pos (e : Z) : (0 < 2 ^ e)%Q.
Proof. apply Qpower_0_lt. reflexivity. Qed.

Lemma Qcompare_scale (a b e : Z) :
  (inject_Z a * 2 ^ e ?= inject_Z b * 2 ^ e)%Q = (a ?= b).
Proof.
  pose proof (pow2_pos e) as Hp.
  destruct (Z.compare_spec a b) as [Heq|Hlt|Hgt].
  - subst. apply Qeq_alt. reflexivity.
  - apply Qlt_alt. apply Qmult_lt_compat_r; [exact Hp|]. rewrite <- Zlt_Qlt. exact Hlt.
  - apply Qgt_alt. apply Qmult_lt_compat_r; [exact Hp|]. rewrite <- Zlt_Qlt. exact Hgt.
Qed.

Lemma Qcompare_shift (m1 m2 e1 e2 : Z) :
  e1 <= e2 ->
  (inject_Z m1 * 2 ^ e1 ?= inject_Z m2 * 2 ^ e2)%Q = (m1 ?= m2 * 2 ^ (e2 - e1)).
Proof.
  intros He. rewrite <- (Qcompare_scale m1 (m2 * 2 ^ (e2 - e1)) e1).
  apply Qcompare_comp; [reflexivity|].
  rewrite inject_Z_mult, Zpower_Qpower by lia.
  rewrite <- Qmult_assoc, <- Qpower_plus by discriminate.
  replace (e2 - e1 + e1) with e2 by lia. reflexivity.
Qed.

Lemma pow2_ge_2 (k : Z) : 1 <= k -> 2 <= 2 ^ k.
Proof. intros H. change 2 with (2 ^ 1) at 1. apply Z.pow_le_mono_r; lia. Qed.

Lemma Qcompare_zero_l (z e : Z) : (0 ?= inject_Z z * 2 ^ e)%Q = (0 ?= z).
Proof.
  rewrite <- (Qcompare_scale 0 z e).
  apply Qcompare_comp; [|reflexivity]. symmetry. apply Qmult_0_l.
Qed.

Lemma Qcompare_zero_r (z e : Z) : (inject_Z z * 2 ^ e ?= 0)%Q = (z ?= 0).
Proof.
  rewrite <- (Qcompare_scale z 0 e).
  apply Qcompare_comp; [reflexivity|]. symmetry. apply Qmult_0_l.
Qed.

(** On well-formed finite floats the IEEE comparison is the comparison of
    the real numbers they denote. *)
Lemma compare_to_Q (x y : spec_float) :
  valid x = true -> valid y = true ->
  is_finite x = true -> is_finite y = true ->
  SFcompare x y = Some (to_Q x ?= to_Q y)%Q.
Proof.
  destruct x as [sx|sx| |sx mx ex]; destruct y as [sy|sy| |sy my ey];
    try discriminate; intros Vx Vy _ _; cbn [SFcompare to_Q valid valid_binary] in *.
  - reflexivity.
  - f_equal. rewrite Qcompare_zero_l. destruct sy; reflexivity.
  - f_equal. rewrite Qcompare_zero_r. destruct sx; reflexivity.
  - destruct (bounded_inv _ _ Vx) as (_ & _ & Bx).
    destruct (bounded_inv _ _ Vy) as (_ & _ & By).
    apply bounded_mantissa in Vx as [Ux Lx]. apply bounded_mantissa in Vy as [Uy Ly].
    f_equal. change (Pos.compare_cont Eq mx my) with (Pos.compare mx my).
    destruct (Z.compare_spec ex ey) as [He|He|He].
    + subst ey. rewrite Qcompare_scale.
      destruct sx, sy; reflexivity.
    + rewrite Qcompare_shift by lia.
      pose proof (pow2_ge_2 (ey - ex) ltac:(lia)) as Hk.
      specialize (Ly ltac:(lia)).
      destruct sx, sy; cbn [cond_Zopp]; symmetry;
        first [apply Z.compare_lt_iff; nia | apply Z.compare_gt_iff; nia].
    + rewrite <- Qcompare_antisym, Qcompare_shift by lia.
      pose proof (pow2_ge_2 (ex - ey) ltac:(lia)) as Hk.
      specialize (Lx ltac:(lia)).
      destruct sx, sy; cbn [cond_Zopp]; symmetry; apply CompOpp_iff; cbn [CompOpp];
        first [apply Z.compare_lt_iff; nia | apply Z.compare_gt_iff; nia].
Qed.

Lemma ltb_true_iff (x y : spec_float) :
  valid x = true -> valid y = true ->
  is_finite x = true -> is_finite y = true ->
  ltb x y = true <-> (to_Q x < to_Q y)%Q.
Proof.
  intros Vx Vy Fx Fy. unfold ltb, SFltb.
  rewrite (compare_to_Q x y Vx Vy Fx Fy), Qlt_alt.
  destruct (to_Q x ?= to_Q y)%Q; split; congruence.
Qed.

Lemma ltb_false_iff (x y : spec_float) :
  valid x = true -> valid y = true ->
  is_finite x = true -> is_finite y = true ->
  ltb x y = false <-> (to_Q y <= to_Q x)%Q.
Proof.
  intros Vx Vy Fx Fy. unfold ltb, SFltb.
  rewrite (compare_to_Q x y Vx Vy Fx Fy).
  destruct (Qcompare_spec (to_Q x) (to_Q y)) as [H|H|H]; split; intros H'; try congruence; try lra.
Qed.

(** A comparison with NaN on either side is false. *)
Lemma ltb_nan_l (y : spec_float) : ltb nan y = false.
Proof. reflexivity. Qed.

End Float64Facts.

(** ** Exact and NaN-free binary64 operations *)

Module Float64Arith.
Import Float64 Float64Facts.






(** *** Rounding never produces NaN *)











(** *** Small integers are floats *)



End Float64Arith.

(** ** Magnitude bounds: no overflow below [2^970] *)

Module Float64Bounds.
Import Float64 Float64Facts Float64Arith.

(** A mantissa has at most [k] binary digits when it is below [2^k]. *)
Lemma Zdigits2_le_iff (m k : Z) :
  0 <= m -> 0 <= k -> Zdigits2 m <= k <-> m < 2 ^ k.
Proof.
  intros Hm Hk. destruct m as [|p|p]; [|clear Hm|lia].
  - cbn [Zdigits2]. split; intros _; [apply Z.pow_pos_nonneg|]; lia.
  - cbn [Zdigits2]. pose proof (digits2_upper p) as Hu. pose proof (digits2_lower p) as Hl.
    split; intros H.
    + eapply Z.lt_le_trans; [exact Hu|]. apply Z.pow_le_mono_r; lia.
    + destruct (Z.le_gt_cases (Zpos (digits2_pos p)) k) as [Hle|Hgt]; [exact Hle|].
      assert (2 ^ (k + 1) <= 2 ^ Zpos (digits2_pos p)) by (apply Z.pow_le_mono_r; lia).
      rewrite Z.pow_add_r in * by lia. lia.
Qed.


Lemma Zdigits2_pos (m : Z) : 0 < m -> 1 <= Zdigits2 m.
Proof. destruct m; cbn; lia. Qed.









(** What [below] says on the mantissa. *)
Lemma below_mantissa (B : Z) (s : bool) (m : positive) (e : Z) :
  below B (S754_finite s m e) = true -> 0 <= B - e - 1 /\ Zpos m < 2 ^ (B - e).
Proof.
  cbn [below]. rewrite Z.leb_le. intros H.
  assert (0 < Zpos (digits2_pos m)) by lia. split; [lia|].
  apply (Zdigits2_le_iff (Zpos m)); cbn [Zdigits2]; lia.
Qed.

Lemma inject_Z_pow2 (k : Z) : 0 <= k -> (inject_Z (2 ^ k) == 2 ^ k)%Q.
Proof.
  intros Hk. destruct k as [|p|p]; [reflexivity| |lia].
  cbn [Qpower]. rewrite Qpower_decomp_positive. cbn [Qnum Qden].
  unfold Qeq, inject_Z. cbn [Qnum Qden].
  rewrite Pos2Z.inj_pow, Z.pow_1_l by lia. reflexivity.
Qed.

(** How [below] reads on the denoted number: its absolute value is less than
    [2^B]. *)
Lemma below_to_Q (B : Z) (x : spec_float) :
  below B x = true -> (Qabs (to_Q x) < 2 ^ B)%Q.
Proof.
  destruct x as [s| | |s m e]; cbn [below to_Q]; try discriminate.
  - intros _. apply pow2_pos.
  - intros H. pose proof (below_mantissa B s m e H) as [H1 H2].
    rewrite Qabs_Qmult.
    assert (Qabs (inject_Z (cond_Zopp s (Zpos m))) == inject_Z (Zpos m))%Q as ->.
    { destruct s; cbn [cond_Zopp]; reflexivity. }
    rewrite (Qabs_pos (2 ^ e)) by (apply Qlt_le_weak, pow2_pos).
    assert (2 ^ B == 2 ^ (B - e) * 2 ^ e)%Q as ->.
    { rewrite <- Qpower_plus by discriminate. replace (B - e + e) with B by lia. reflexivity. }
    apply Qmult_lt_compat_r; [apply pow2_pos|].
    rewrite <- inject_Z_pow2 by lia. rewrite <- Zlt_Qlt. exact H2.
Qed.














End Float64Bounds.


(** ** Label mapper *)

Section MetClass.
Import Float64 Float64Facts.

Lemma lit_15_value : (to_Q (lit 15 1) == 3 # 2)%Q.
Proof. vm_compute. reflexivity. Qed.

Lemma lit_30_value : (to_Q (lit 30 1) == 3)%Q.
Proof. vm_compute. reflexivity. Qed.

Lemma lit_60_value : (to_Q (lit 60 1) == 6)%Q.
Proof. vm_compute. reflexivity. Qed.

(** The class of a real MET value, decided by the three breakpoints. *)
Lemma get_met_class_real (v : spec_float) :
  valid v = true -> is_finite v = true ->
  get_met_class v =
    if Qlt_le_dec (to_Q v) (3 # 2) then 0
    else if Qlt_le_dec (to_Q v) 3 then 1
    else if Qlt_le_dec (to_Q v) 6 then 2 else 3.
Proof.
  intros V F. unfold get_met_class.
  pose proof lit_15_value as E1. pose proof lit_30_value as E2. pose proof lit_60_value as E3.
  destruct (ltb v (lit 15 1)) eqn:C1;
    [apply ltb_true_iff in C1 | apply ltb_false_iff in C1]; try reflexivity; trivial.
  { destruct (Qlt_le_dec (to_Q v) (3 # 2)); [reflexivity | lra]. }
  destruct (ltb v (lit 30 1)) eqn:C2;
    [apply ltb_true_iff in C2 | apply ltb_false_iff in C2]; try reflexivity; trivial.
  { destruct (Qlt_le_dec (to_Q v) (3 # 2)); [lra|].
    destruct (Qlt_le_dec (to_Q v) 3); [reflexivity | lra]. }
  destruct (ltb v (lit 60 1)) eqn:C3;
    [apply ltb_true_iff in C3 | apply ltb_false_iff in C3]; try reflexivity; trivial.
  { destruct (Qlt_le_dec (to_Q v) (3 # 2)); [lra|].
    destruct (Qlt_le_dec (to_Q v) 3); [lra|].
    destruct (Qlt_le_dec (to_Q v) 6); [reflexivity | lra]. }
  destruct (Qlt_le_dec (to_Q v) (3 # 2)); [lra|].
  destruct (Qlt_le_dec (to_Q v) 3); [lra|].
  destruct (Qlt_le_dec (to_Q v) 6); [lra | reflexivity].
Qed.

(** C2: on every real MET value the class is 0 below 1.5, 1 on [1.5, 3.0),
    2 on [3.0, 6.0) and 3 from 6.0 on; the class is non-decreasing in the
    value, and each breakpoint belongs to the class that starts there. *)
Theorem get_met_class_breakpoints (v w : spec_float) :
  valid v = true -> is_finite v = true ->
  valid w = true -> is_finite w = true ->
  ((to_Q v < 3 # 2)%Q -> get_met_class v = 0) /\
  ((3 # 2 <= to_Q v)%Q /\ (to_Q v < 3)%Q -> get_met_class v = 1) /\
  ((3 <= to_Q v)%Q /\ (to_Q v < 6)%Q -> get_met_class v = 2) /\
  ((6 <= to_Q v)%Q -> get_met_class v = 3) /\
  ((to_Q v <= to_Q w)%Q -> get_met_class v <= get_met_class w) /\
  get_met_class (lit 15 1) = 1 /\
  get_met_class (lit 30 1) = 2 /\
  get_met_class (lit 60 1) = 3.
Proof.
  intros Vv Fv Vw Fw.
  rewrite (get_met_class_real v Vv Fv), (get_met_class_real w Vw Fw).
  repeat split; try reflexivity; intros;
    repeat match goal with
           | |- context [Qlt_le_dec ?a ?b] => destruct (Qlt_le_dec a b)
           end; try reflexivity; try lia; lra.
Qed.

(** A MET value of 1.2 (below the first breakpoint) and one of 7.0. *)
Lemma get_met_class_breakpoints_witness :
  get_met_class (lit 12 1) = 0 /\ get_met_class (lit 12 1) <= get_met_class (lit 70 1).
Proof.
  pose proof (get_met_class_breakpoints (lit 12 1) (lit 70 1)
                eq_refl eq_refl eq_refl eq_refl) as (H0 & _ & _ & _ & Hm & _).
  split.
  - apply H0. vm_compute. reflexivity.
  - apply Hm. vm_compute. discriminate.
Defined.

(** C9: the class is defined on every float and is one of 0, 1, 2, 3; on
    NaN each of the three comparisons is false and the class is 3. *)
Theorem get_met_class_total_nan (v : spec_float) :
  (get_met_class v = 0 \/ get_met_class v = 1 \/
   get_met_class v = 2 \/ get_met_class v = 3) /\
  ltb nan (lit 15 1) = false /\ ltb nan (lit 30 1) = false /\
  ltb nan (lit 60 1) = false /\
  get_met_class nan = 3.
Proof.
  split; [|repeat split].
  unfold get_met_class.
  destruct (ltb v (lit 15 1)); [tauto|].
  destruct (ltb v (lit 30 1)); [tauto|].
  destruct (ltb v (lit 60 1)); tauto.
Qed.

End MetClass.

Section Labels.
Import Float64.

Lemma add_met_columns_lookup (mapping : gmap string spec_float) (df : list sample) (i : nat) :
  add_met_columns mapping df !! i =
  (fun r => {| row := r; met_value := series_map mapping (activity r);
               met_class := get_met_class (series_map mapping (activity r)) |}) <$> df !! i.
Proof. unfold add_met_columns. rewrite map_fmap, list_lookup_fmap. reflexivity. Qed.

(** No entry of the table is NaN. *)
Lemma activity_met_mapping_values (a : string) (v : spec_float) :
  activity_met_mapping !! a = Some v -> is_nan v = false.
Proof.
  intros H. apply elem_of_list_to_map_2 in H.
  repeat (apply elem_of_cons in H as [H|H]; [injection H as -> ->; reflexivity|]).
  apply elem_of_nil in H. destruct H.
Qed.

(** C1, as the code has it: labelling raises nothing and keeps every row; a
    row whose activity is not in the table gets the missing value NaN as its
    MET value, which is none of the table's values; a row whose activity is
    in the table gets the table's value and the class of that value. *)
Theorem add_met_columns_unmapped (df : list sample) (i : nat) (r : sample) :
  df !! i = Some r ->
  length (add_met_columns activity_met_mapping df) = length df /\
  exists l,
    add_met_columns activity_met_mapping df !! i = Some l /\
    row l = r /\
    (activity_met_mapping !! activity r = None ->
       is_nan (met_value l) = true /\
       forall a v, activity_met_mapping !! a = Some v -> met_value l <> v) /\
    (forall v, activity_met_mapping !! activity r = Some v ->
       met_value l = v /\ met_class l = get_met_class v).
Proof.
  intros Hi. split; [apply length_map|].
  rewrite add_met_columns_lookup, Hi. cbn [fmap option_fmap option_map].
  eexists. split; [reflexivity|]. cbn [row met_value met_class].
  split; [reflexivity|]. unfold series_map. split.
  - intros ->. split; [reflexivity|].
    intros a v Hv Hnan. subst v. apply activity_met_mapping_values in Hv. discriminate Hv.
  - intros v ->. split; reflexivity.
Qed.

Lemma add_met_columns_unmapped_witness :
  exists l, add_met_columns activity_met_mapping [biking 0; biking 1] !! 1%nat = Some l /\
            row l = biking 1.
Proof.
  destruct (add_met_columns_unmapped [biking 0; biking 1] 1 (biking 1) eq_refl)
    as (_ & l & Hl & Hr & _).
  exists l. split; assumption.
Defined.

(** Two samples of an activity that the table does not have: no error is
    raised, both rows get class 3, and the window cut from them enters the
    training set with label 3. *)
Lemma unmapped_activity_is_labelled :
  activity_met_mapping !! "Biking"%string = None /\
  add_met_columns activity_met_mapping [biking 0; biking 1] =
    [ {| row := biking 0; met_value := nan; met_class := 3 |};
      {| row := biking 1; met_value := nan; met_class := 3 |} ] /\
  exists features,
    create_features_from_dataframe
      (add_met_columns activity_met_mapping [biking 0; biking 1]) extract_features 2
    = Ok ([features], [3]).
Proof.
  split; [vm_compute; reflexivity|]. split; [vm_compute; reflexivity|].
  eexists. vm_compute. reflexivity.
Qed.

End Labels.

(** ** Window segmenter *)

Section Segmenter.

Lemma range_up_spec (step stop : Z) (fuel : nat) (i : Z) :
  0 < step -> stop - i <= Z.of_nat fuel ->
  range_up fuel i stop step =
  map (fun k => i + Z.of_nat k * step) (seq 0 (Z.to_nat ((stop - i - 1) / step + 1))).
Proof.
  intros Hs. revert i. induction fuel as [|fuel IH]; intros i Hf.
  - replace (Z.to_nat ((stop - i - 1) / step + 1)) with O; [reflexivity|].
    assert ((stop - i - 1) / step < 0) by (apply Z.div_lt_upper_bound; lia). lia.
  - cbn [range_up]. destruct (Z.ltb_spec i stop) as [Hlt|Hge].
    + rewrite IH by lia.
      replace (stop - (i + step) - 1) with (stop - i - 1 + (-1) * step) by lia.
      rewrite Z.div_add by lia.
      assert (0 <= (stop - i - 1) / step) by (apply Z.div_pos; lia).
      replace (Z.to_nat ((stop - i - 1) / step + 1))
        with (S (Z.to_nat ((stop - i - 1) / step + -1 + 1))) by lia.
      cbn [seq map]. f_equal; [lia|].
      rewrite <- seq_shift, map_map. apply map_ext. intros k. lia.
    + replace (Z.to_nat ((stop - i - 1) / step + 1)) with O; [reflexivity|].
      assert ((stop - i - 1) / step < 0) by (apply Z.div_lt_upper_bound; lia). lia.
Qed.

Lemma range_down_empty (i stop step : Z) :
  i <= stop -> range_down (Z.to_nat (i - stop)) i stop step = [].
Proof. intros H. replace (Z.to_nat (i - stop)) with O by lia. reflexivity. Qed.

Lemma filter_all {A} (P : A -> Prop) `{forall a, Decision (P a)} (l : list A) :
  Forall P l -> filter P l = l.
Proof.
  induction 1 as [|a l Ha _ IH]; [reflexivity|].
  rewrite filter_cons_True by exact Ha. f_equal. exact IH.
Qed.

Lemma iloc_inside {A} (data : list A) (i w : Z) :
  0 <= i -> 0 <= w -> i + w <= Z.of_nat (length data) ->
  iloc data i (i + w) = take (Z.to_nat w) (drop (Z.to_nat i) data).
Proof.
  intros Hi Hw Hl. unfold iloc, clip_index.
  destruct (Z.ltb_spec i 0); [lia|]. destruct (Z.ltb_spec (i + w) 0); [lia|].
  f_equal; [|f_equal]; lia.
Qed.

Lemma length_take_drop {A} (data : list A) (i w : nat) :
  (i + w <= length data)%nat -> length (take w (drop i data)) = w.
Proof. intros H. rewrite length_take, length_drop. lia. Qed.

Lemma window_fits (len w k : Z) :
  2 <= w -> 0 <= k -> k < (len - w) / (w / 2) + 1 ->
  0 <= k * (w / 2) /\ k * (w / 2) + w <= len.
Proof.
  intros Hw Hk Hlt.
  assert (0 < w / 2) as Hs by (apply Z.div_str_pos; lia).
  pose proof (Z.mul_div_le (len - w) (w / 2) Hs) as Hm.
  split; nia.
Qed.

Lemma group_windows_pos {A} (activity_data : list A) (w : Z) :
  2 <= w ->
  group_windows activity_data w =
  Ok (map (fun k => take (Z.to_nat w) (drop (Z.to_nat (Z.of_nat k * (w / 2))) activity_data))
        (seq 0 (window_count (Z.of_nat (length activity_data)) w))).
Proof.
  intros Hw. unfold group_windows, py_range, window_count.
  assert (0 < w / 2) as Hs by (apply Z.div_str_pos; lia).
  destruct (Z.eqb_spec (w / 2) 0); [lia|]. destruct (Z.ltb_spec 0 (w / 2)); [|lia].
  rewrite range_up_spec by lia. cbn [mbind result_bind]. f_equal.
  set (len := Z.of_nat (length activity_data)).
  replace (len - w + 1 - 0 - 1) with (len - w) by lia.
  replace (Z.to_nat (Z.max 0 ((len - w) / (w / 2) + 1)))
    with (Z.to_nat ((len - w) / (w / 2) + 1)) by lia.
  rewrite map_map.
  rewrite filter_all.
  - apply map_ext_in. intros k Hk. apply in_seq in Hk.
    replace (0 + Z.of_nat k * (w / 2)) with (Z.of_nat k * (w / 2)) by lia.
    destruct (window_fits len w (Z.of_nat k)) as [H0 H1]; [lia..|].
    apply iloc_inside; lia.
  - apply Forall_forall. intros win Hin. apply list_elem_of_In, in_map_iff in Hin.
    destruct Hin as (k & <- & Hk). apply in_seq in Hk.
    replace (0 + Z.of_nat k * (w / 2)) with (Z.of_nat k * (w / 2)) by lia.
    destruct (window_fits len w (Z.of_nat k)) as [H0 H1]; [lia..|].
    rewrite iloc_inside by lia. rewrite length_take_drop; lia.
Qed.

Lemma group_windows_neg {A} (activity_data : list A) (w : Z) :
  w < 0 -> group_windows activity_data w = Ok [].
Proof.
  intros Hw. unfold group_windows, py_range.
  assert (w / 2 < 0) as Hs by (apply Z.div_lt_upper_bound; lia).
  destruct (Z.eqb_spec (w / 2) 0); [lia|]. destruct (Z.ltb_spec 0 (w / 2)); [lia|].
  rewrite range_down_empty by lia. reflexivity.
Qed.

Lemma window_count_neg (len w : Z) : 0 <= len -> w < 0 -> window_count len w = O.
Proof.
  intros Hl Hw. unfold window_count.
  assert (w / 2 < 0) as Hs by (apply Z.div_lt_upper_bound; lia).
  assert ((len - w) / (w / 2) < 0); [|lia].
  pose proof (Z.div_mod (len - w) (w / 2) ltac:(lia)) as Hd.
  pose proof (Z.mod_neg_bound (len - w) (w / 2) Hs) as Hb. nia.
Qed.

Lemma window_count_short (len w : Z) :
  w / 2 <> 0 -> 0 <= len -> len < w -> window_count len w = O.
Proof.
  intros E Hl Hw. unfold window_count.
  assert (0 < w / 2) as Hs by (pose proof (Z.div_pos w 2 ltac:(lia) ltac:(lia)); lia).
  assert ((len - w) / (w / 2) < 0) by (apply Z.div_lt_upper_bound; lia). lia.
Qed.

Lemma half_nonzero (w : Z) : w / 2 <> 0 -> 2 <= w \/ w < 0.
Proof.
  intros E. destruct (Z.eq_dec w 0) as [->|]; [contradiction E; reflexivity|].
  destruct (Z.eq_dec w 1) as [->|]; [contradiction E; reflexivity|]. lia.
Qed.

(** One group: the windows start at 0, S, 2S, ... with S = W // 2, each has
    W rows and fits in the group, and there are max(0, (L - W) // S + 1). *)
Lemma group_windows_spec {A} (activity_data : list A) (w : Z) :
  w / 2 <> 0 ->
  exists windows,
    group_windows activity_data w = Ok windows /\
    length windows = window_count (Z.of_nat (length activity_data)) w /\
    forall (k : nat) (window : list A),
      windows !! k = Some window ->
      0 <= Z.of_nat k * (w / 2) /\
      Z.of_nat k * (w / 2) + w <= Z.of_nat (length activity_data) /\
      window = take (Z.to_nat w) (drop (Z.to_nat (Z.of_nat k * (w / 2))) activity_data) /\
      Z.of_nat (length window) = w.
Proof.
  intros E. destruct (half_nonzero w E) as [Hw|Hw].
  - eexists. split; [apply group_windows_pos; exact Hw|].
    split; [rewrite length_map, length_seq; reflexivity|].
    intros k window Hk.
    rewrite map_fmap, list_lookup_fmap in Hk.
    destruct (seq 0 _ !! k) as [k'|] eqn:Hs; [|discriminate].
    apply lookup_seq in Hs as [-> Hs]. cbn in Hk. injection Hk as <-.
    unfold window_count in Hs.
    destruct (window_fits (Z.of_nat (length activity_data)) w (Z.of_nat k)) as [H0 H1]; [lia..|].
    repeat split; try lia. rewrite length_take_drop; lia.
  - exists []. split; [apply group_windows_neg; exact Hw|].
    split; [rewrite window_count_neg by lia; reflexivity|].
    intros k window Hk. discriminate.
Qed.

Lemma traverse_inv {A B} (f : A -> result B) (l : list A) (bs : list B) :
  traverse f l = Ok bs -> Forall2 (fun a b => f a = Ok b) l bs.
Proof.
  revert bs. induction l as [|a l IH]; intros bs H; cbn in H.
  - injection H as <-. constructor.
  - destruct (f a) as [b|e] eqn:Ha; [|discriminate]. cbn in H.
    destruct (traverse f l) as [bs'|e]; [|discriminate]. cbn in H.
    injection H as <-. constructor; [exact Ha | apply IH; reflexivity].
Qed.

Lemma traverse_total {A B} (f : A -> result B) (l : list A) :
  (forall a, In a l -> exists b, f a = Ok b) -> exists bs, traverse f l = Ok bs.
Proof.
  induction l as [|a l IH]; intros H; cbn.
  - eexists; reflexivity.
  - destruct (H a (or_introl eq_refl)) as [b ->].
    destruct IH as [bs ->]; [intros; apply H; right; assumption|].
    eexists; reflexivity.
Qed.

(** Every group holds the rows of one user and one activity. *)
Lemma groups_homogeneous (df : list labelled) (g : list labelled) :
  In g (groups df) ->
  exists u a, forall r : labelled, In r g -> user r = u /\ activity r = a /\ In r df.
Proof.
  unfold groups. intros H. apply in_flat_map in H as (u & _ & H).
  apply in_map_iff in H as (a & <- & _). exists u, a. intros r Hr.
  apply list_elem_of_In, list_elem_of_filter in Hr as [Ha Hr].
  apply list_elem_of_filter in Hr as [Hu Hr].
  apply list_elem_of_In in Hr. auto.
Qed.

Lemma in_take_drop {A} (l : list A) (i n : nat) (a : A) :
  In a (take n (drop i l)) -> In a l.
Proof.
  intros H. rewrite <- (take_drop i l). apply in_or_app. right.
  rewrite <- (take_drop n (drop i l)). apply in_or_app. left. exact H.
Qed.

Lemma Forall2_in_r {A B} (R : A -> B -> Prop) (l : list A) (bs : list B) (b : B) :
  Forall2 R l bs -> In b bs -> exists a, In a l /\ R a b.
Proof.
  induction 1 as [|a b' l bs Hab _ IH]; intros Hin; [destruct Hin|].
  destruct Hin as [->|Hin]; [exists a; split; [left; reflexivity | exact Hab]|].
  destruct (IH Hin) as (a' & Ha' & HR). exists a'. split; [right|]; assumption.
Qed.

(** The segmentation of a data frame returns, and each of its windows is a
    full window of one of the groups. *)
Lemma frame_windows_spec (df : list labelled) (w : Z) :
  w / 2 <> 0 ->
  exists windows,
    frame_windows df w = Ok windows /\
    forall window, In window windows ->
      Z.of_nat (length window) = w /\
      exists g (k : nat),
        In g (groups df) /\
        Z.of_nat k * (w / 2) + w <= Z.of_nat (length g) /\
        window = take (Z.to_nat w) (drop (Z.to_nat (Z.of_nat k * (w / 2))) g).
Proof.
  intros E. unfold frame_windows.
  destruct (traverse_total (fun g => group_windows g w) (groups df)) as [wss Hw].
  { intros g _. destruct (group_windows_spec g w E) as (ws & H & _). eauto. }
  rewrite Hw. cbn. eexists. split; [reflexivity|].
  intros window Hin. apply in_concat in Hin as (ws & Hws & Hin).
  apply traverse_inv in Hw.
  destruct (Forall2_in_r _ _ _ _ Hw Hws) as (g & Hg & Hgw).
  destruct (group_windows_spec g w E) as (ws' & Hgw' & _ & Hall).
  rewrite Hgw in Hgw'. injection Hgw' as <-.
  apply list_elem_of_In, list_elem_of_lookup in Hin as [k Hk].
  destruct (Hall k window Hk) as (_ & Hfit & Heq & Hlen).
  split; [exact Hlen|]. exists g, k. auto.
Qed.

Lemma traverse_map_inv {A B} (f : A -> result B) (g : A -> B) (l : list A) (bs : list B) :
  traverse f l = Ok bs -> (forall a b, In a l -> f a = Ok b -> b = g a) -> bs = map g l.
Proof.
  intros H Hg. apply traverse_inv in H.
  induction H as [|a b l bs Hab _ IH]; [reflexivity|]. cbn. f_equal.
  - apply Hg; [left; reflexivity | exact Hab].
  - apply IH. intros a' b' Hin. apply Hg. right. exact Hin.
Qed.

(** The label column of the training set: the class of the first row of
    each window. *)
Lemma create_features_labels (df : list labelled)
    (extract_features : accel_data -> result (list spec_float)) (w : Z)
    (features : list (list spec_float)) (labels : list Z) :
  create_features_from_dataframe df extract_features w = Ok (features, labels) ->
  exists windows,
    frame_windows df w = Ok windows /\
    Forall2 (fun window label => first_label window = Ok label) windows labels /\
    Forall2 (fun window fv => extract_features (accel_of_window window) = Ok fv)
      windows features.
Proof.
  unfold create_features_from_dataframe. intros H.
  destruct (frame_windows df w) as [windows|e]; [|discriminate]. cbn in H.
  destruct (traverse _ windows) as [rows|e] eqn:Hr; [|discriminate]. cbn in H.
  injection H as <- <-. exists windows. split; [reflexivity|].
  apply traverse_inv in Hr. clear -Hr.
  induction Hr as [|window [fv lab] windows rows H _ IH]; [split; constructor|].
  destruct IH as [IH1 IH2].
  destruct (extract_features (accel_of_window window)) as [fv'|e] eqn:He; [|discriminate]. cbn in H.
  destruct (first_label window) as [lab'|e] eqn:Hl; [|discriminate]. cbn in H.
  injection H as -> ->. split; constructor; auto.
Qed.

(** C4, for every window size whose half is not zero: one group of L rows is
    cut into windows that start at 0 and advance by W // 2 while
    start + W <= L; there are max(0, (L - W) // (W // 2) + 1) of them, none
    when L < W.  In the data frame every window lies within one group, so
    its rows share user and activity, and its label is the class of its
    first row. *)
Theorem segmentation_windows (df activity_data : list labelled) (w : Z) :
  w / 2 <> 0 ->
  (exists windows,
     group_windows activity_data w = Ok windows /\
     Z.of_nat (length windows) =
       Z.max 0 ((Z.of_nat (length activity_data) - w) / (w / 2) + 1) /\
     (Z.of_nat (length activity_data) < w -> windows = []) /\
     forall (k : nat) (window : list labelled),
       windows !! k = Some window ->
       0 <= Z.of_nat k * (w / 2) /\
       Z.of_nat k * (w / 2) + w <= Z.of_nat (length activity_data) /\
       window = take (Z.to_nat w) (drop (Z.to_nat (Z.of_nat k * (w / 2))) activity_data) /\
       Z.of_nat (length window) = w) /\
  (exists windows,
     frame_windows df w = Ok windows /\
     forall window, In window windows ->
       exists (r : labelled) rest,
         window = r :: rest /\
         first_label window = Ok (met_class r) /\
         forall r' : labelled, In r' window ->
           user r' = user r /\ activity r' = activity r) /\
  (forall extract_features features labels,
     create_features_from_dataframe df extract_features w = Ok (features, labels) ->
     exists windows,
       frame_windows df w = Ok windows /\
       Forall2 (fun window label => first_label window = Ok label) windows labels).
Proof.
  intros E. split; [|split].
  - destruct (group_windows_spec activity_data w E) as (windows & Hg & Hlen & Hall).
    exists windows. split; [exact Hg|]. split; [unfold window_count in Hlen; lia|].
    split; [|exact Hall].
    intros Hshort. rewrite window_count_short in Hlen by lia.
    destruct windows; [reflexivity | discriminate].
  - destruct (frame_windows_spec df w E) as (windows & Hf & Hall).
    exists windows. split; [exact Hf|]. intros window Hin.
    destruct (Hall window Hin) as (Hlen & g & k & Hg & _ & Heq).
    destruct (half_nonzero w E) as [Hw|Hw]; [|lia].
    destruct window as [|r rest]; [cbn in Hlen; lia|].
    exists r, rest. split; [reflexivity|]. split; [reflexivity|].
    destruct (groups_homogeneous df g Hg) as (u & a & Hua).
    assert (forall r0 : labelled, In r0 (r :: rest) -> user r0 = u /\ activity r0 = a) as Hwin.
    { intros r0 Hr0. rewrite Heq in Hr0. apply in_take_drop in Hr0.
      destruct (Hua r0 Hr0) as (? & ? & _). auto. }
    intros r' Hr'. destruct (Hwin r' Hr') as [-> ->].
    destruct (Hwin r (or_introl eq_refl)) as [-> ->]. auto.
  - intros extract_features features labels H.
    destruct (create_features_labels _ _ _ _ _ H) as (windows & Hf & Hl & _).
    exists windows. auto.
Qed.

(** Five rows of one group, windows of two rows: four windows, at 0, 1, 2, 3. *)
Lemma segmentation_windows_witness :
  exists windows,
    group_windows (add_met_columns activity_met_mapping
                     [biking 0; biking 1; biking 2; biking 3; biking 4]) 2 = Ok windows /\
    Z.of_nat (length windows) = 4.
Proof.
  destruct (segmentation_windows []
              (add_met_columns activity_met_mapping
                 [biking 0; biking 1; biking 2; biking 3; biking 4]) 2)
    as ((windows & Hg & Hlen & _) & _).
  - discriminate.
  - exists windows. split; [exact Hg | exact Hlen].
Defined.

(** A window of one row: the stride 1 // 2 is 0 and [range] raises, so that
    no window is cut from a group of one row, where the formula counts one. *)
Lemma group_windows_stride_zero :
  group_windows [biking 0] 1 = Raise (ValueError "range() arg 3 must not be zero") /\
  Z.max 0 ((Z.of_nat (length [biking 0]) - 1) / (1 / 2) + 1) = 1 /\
  ~ exists windows,
      group_windows [biking 0] 1 = Ok windows /\
      Z.of_nat (length windows) = Z.max 0 ((Z.of_nat (length [biking 0]) - 1) / (1 / 2) + 1).
Proof.
  split; [reflexivity|]. split; [reflexivity|].
  intros (windows & H & _). discriminate H.
Qed.

End Segmenter.

(** ** Zero crossings *)

Section ZeroCrossings.
Import Float64 Float64Facts Float64Arith.

















End ZeroCrossings.

(** ** Feature extractor *)

Section Extractor.
Import Float64 Float64Facts Float64Arith Float64Bounds.



Lemma zero_crossings_singleton (v : spec_float) : zero_crossings [v] = 0.
Proof. reflexivity. Qed.

Lemma broadcast_same (op : spec_float -> spec_float -> spec_float) (a b : list spec_float) :
  length a = length b -> np.broadcast op a b = Ok (zip_with op a b).
Proof. intros H. unfold np.broadcast. rewrite decide_True by exact H. reflexivity. Qed.

Lemma length_square (a : list spec_float) : length (np.square a) = length a.
Proof. apply length_map. Qed.

(** On three columns of one length the magnitude is computed row by row. *)
Lemma magnitude_of_same (d : accel_data) :
  length (ax d) = length (ay d) -> length (ay d) = length (az d) ->
  exists magnitude,
    magnitude_of d = Ok magnitude /\ length magnitude = length (ax d).
Proof.
  intros Hxy Hyz. unfold magnitude_of.
  rewrite broadcast_same by (rewrite !length_square; exact Hxy). cbn [mbind result_bind].
  rewrite broadcast_same
    by (rewrite length_zip_with, !length_square; lia).
  cbn [mbind result_bind]. eexists. split; [reflexivity|].
  rewrite length_map, !length_zip_with, !length_square. lia.
Qed.

(** *** No overflow on bounded samples *)




































Lemma min_singleton (v : spec_float) : np.min [v] = Ok v.
Proof. reflexivity. Qed.

Lemma max_singleton (v : spec_float) : np.max [v] = Ok v.
Proof. reflexivity. Qed.




End Extractor.

(** ** The fitted forest *)

Section Forest.
Local Open Scope Q_scope.













End Forest.

(** ** Prediction *)

Section Predict.







End Predict.

(** ** Persistence and readiness *)

Section Persistence.

Lemma append_inv_head (p a b : string) : (p ++ a = p ++ b)%string -> a = b.
Proof. induction p as [|c p IH]; cbn; intros H; [exact H|]. injection H as H. auto. Qed.

Lemma path_join_inj (dir a b : string) : path_join dir a = path_join dir b -> a = b.
Proof.
  unfold path_join. destruct dir as [|c dir]; [auto|].
  destruct (String.eqb _ _); intros H.
  - exact (append_inv_head _ _ _ H).
  - apply append_inv_head in H. injection H as H. exact H.
Qed.

Lemma path_join_ne (dir a b : string) : a <> b -> path_join dir a <> path_join dir b.
Proof. intros H E. apply H, (path_join_inj dir), E. Qed.

(** [int(str(z))] is [z]. *)
Lemma py_int_str (z : Z) : py_int (py_str z) = Ok z.
Proof.
  unfold py_int, py_str.
  assert (forall d, option_map Z.of_int (NilZero.int_of_string (NilZero.string_of_int d))
                    = Some (Z.of_int d)) as H.
  { intros d. destruct (Decimal.int_eq_dec d (Decimal.Pos Decimal.Nil)) as [->|H1]; [reflexivity|].
    destruct (Decimal.int_eq_dec d (Decimal.Neg Decimal.Nil)) as [->|H2]; [reflexivity|].
    rewrite NilZero.isi by assumption. reflexivity. }
  specialize (H (Z.to_int z)).
  destruct (NilZero.int_of_string _) as [d|]; [|discriminate].
  cbn in H. injection H as ->. rewrite DecimalZ.of_to. reflexivity.
Qed.

Lemma dict_set_fresh {K V} `{EqDecision K} (d : list (K * V)) (k : K) (v : V) :
  ~ In k (map fst d) -> dict_set d k v = d ++ [(k, v)].
Proof.
  induction d as [|kv d IH]; intros Hk; cbn [dict_set app]; [reflexivity|].
  cbn [map] in Hk. rewrite decide_False by (intros E; apply Hk; left; exact E).
  f_equal. apply IH. intros Hin. apply Hk. right. exact Hin.
Qed.

Lemma int_keys_from (l acc : list (Z * string)) :
  NoDup (map fst (acc ++ l)) ->
  fold_left (fun acc kv => d ← acc; k ← py_int (fst kv); Ok (dict_set d k (snd kv)))
    (map (fun kv => (py_str (fst kv), snd kv)) l) (Ok acc) = Ok (acc ++ l).
Proof.
  revert acc. induction l as [|[k v] l IH]; intros acc Hnd; cbn [map fold_left].
  - rewrite app_nil_r. reflexivity.
  - cbn [fst snd mbind result_bind]. rewrite py_int_str. cbn [mbind result_bind].
    rewrite dict_set_fresh.
    + rewrite IH; rewrite <- app_assoc; [reflexivity | exact Hnd].
    + rewrite map_app in Hnd. cbn [map fst] in Hnd.
      apply NoDup_app in Hnd as (_ & Hd & _). intros Hin.
      apply (Hd k); [apply list_elem_of_In, Hin | left].
Qed.

(** The keys of [met_classes] come back from their decimal strings. *)
Lemma int_keys_str (d : list (Z * string)) :
  NoDup (map fst d) ->
  int_keys (map (fun kv => (py_str (fst kv), snd kv)) d) = Ok d.
Proof. intros H. unfold int_keys. apply (int_keys_from d []). exact H. Qed.

Lemma save_model_files (self : METPredictor) (fs fs' : gmap string file) (dir : string) :
  save_model self fs dir = (fs', Ok tt) ->
  exists names,
    feature_names self = Some names /\
    fs' !! path_join dir "met_model.pkl" = Some (Pickle_model (model self)) /\
    fs' !! path_join dir "scaler.pkl" = Some (Pickle_scaler (scaler self)) /\
    fs' !! path_join dir "model_metadata.json" =
      Some (Json {| md_feature_names := names;
                    md_met_classes := map (fun kv => (py_str (fst kv), snd kv)) (met_classes self);
                    md_model_type := "RandomForestClassifier";
                    md_n_features := Z.of_nat (length names) |}).
Proof.
  unfold save_model. destruct (feature_names self) as [names|]; [|discriminate].
  intros H. injection H as <-. exists names. split; [reflexivity|].
  split; [|split].
  - rewrite lookup_insert_ne by (apply path_join_ne; discriminate).
    rewrite lookup_insert_ne by (apply path_join_ne; discriminate).
    apply lookup_insert_eq.
  - rewrite lookup_insert_ne by (apply path_join_ne; discriminate).
    apply lookup_insert_eq.
  - apply lookup_insert_eq.
Qed.


(** C6: a directory written by [save_model] is read back by [load_model]
    into the saved classifier, scaler, feature names and class names, and the
    loaded predictor returns what the saved one returns, on every vector. *)
Theorem save_load_roundtrip (self other : METPredictor) (fs fs' : gmap string file)
    (dir : string) :
  NoDup (map fst (met_classes self)) ->
  save_model self fs dir = (fs', Ok tt) ->
  exists loaded,
    load_model other fs' dir = (loaded, Ok tt) /\
    model loaded = model self /\
    scaler loaded = scaler self /\
    feature_names loaded = feature_names self /\
    met_classes loaded = met_classes self /\
    forall features, predict loaded features = predict self features.
Proof.
  intros Hnd Hsave.
  destruct (save_model_files _ _ _ _ Hsave) as (names & Hn & Hm & Hs & Hj).
  unfold load_model. rewrite Hm, Hs, Hj. cbn [md_met_classes md_feature_names].
  rewrite (int_keys_str _ Hnd).
  eexists. split; [reflexivity|]. cbn [model scaler feature_names met_classes].
  repeat split; auto.
Qed.

(** The saved forest of the examples, written to and read from
    "models/trained". *)
Lemma save_load_roundtrip_witness :
  exists loaded,
    load_model init (fst (save_model wisdm_predictor ∅ "models/trained")) "models/trained"
      = (loaded, Ok tt) /\
    forall features, predict loaded features = predict wisdm_predictor features.
Proof.
  destruct (save_load_roundtrip wisdm_predictor init ∅
              (fst (save_model wisdm_predictor ∅ "models/trained")) "models/trained")
    as (loaded & Hl & _ & _ & _ & _ & Hp).
  - cbn [wisdm_predictor met_classes init map fst].
    repeat (apply NoDup_cons_2; [rewrite ?elem_of_cons, elem_of_nil; lia|]).
    apply NoDup_nil_2.
  - reflexivity.
  - exists loaded. split; assumption.
Defined.

Lemma scaler_transform_other_error (s : StandardScaler) (features : list spec_float) :
  scaler_transform s features <> Raise not_trained.
Proof. unfold scaler_transform. case_decide; discriminate. Qed.

Lemma forest_predict_proba_other_error (m : RandomForestClassifier) (x : list spec_float) :
  forest_predict_proba m x <> Raise not_trained.
Proof. unfold forest_predict_proba. case_decide; discriminate. Qed.

Lemma dict_get_other_error {V} (d : list (Z * V)) (k : Z) : dict_get d k <> Raise not_trained.
Proof. unfold dict_get. destruct (find _ d); discriminate. Qed.

Lemma Qmax_list_other_error (l : list Q) : Qmax_list l <> Raise not_trained.
Proof. destruct l; discriminate. Qed.

(** The error of [predict] on an absent classifier or scaler is raised in
    that case only. *)
Lemma predict_not_trained_iff (self : METPredictor) (features : list spec_float) :
  predict self features = Raise not_trained <-> model self = None \/ scaler self = None.
Proof.
  unfold predict. destruct (model self) as [m|], (scaler self) as [s|];
    try (split; [auto | reflexivity]).
  split; [|intros [H|H]; discriminate H]. intros H. exfalso.
  pose proof (scaler_transform_other_error s features) as H1.
  destruct (scaler_transform s features) as [scaled|e]; cbn [mbind result_bind] in H; [|injection H as ->; exact (H1 eq_refl)].
  pose proof (forest_predict_proba_other_error m scaled) as H2.
  unfold forest_predict in H.
  destruct (forest_predict_proba m scaled) as [proba|e]; cbn [mbind result_bind] in H; [|injection H as ->; exact (H2 eq_refl)].
  pose proof (dict_get_other_error (met_classes self) (nth (argmax proba) (classes_ m) 0)) as H3.
  destruct (dict_get _ _) as [name|e]; cbn [mbind result_bind] in H; [|injection H as ->; exact (H3 eq_refl)].
  pose proof (Qmax_list_other_error proba) as H4.
  destruct (Qmax_list proba) as [c|e]; cbn [mbind result_bind] in H; [|injection H as ->; exact (H4 eq_refl)]. discriminate H.
Qed.




End Persistence.

(** ** Stability layer *)

Section Stability.
Import Voting.

Lemma push_snoc (history : list Z) (p : Z) :
  push history p = drop (length history + 1 - N) history ++ [p].
Proof.
  unfold push. rewrite length_app. cbn [length].
  apply drop_app_le. unfold N. lia.
Qed.

Lemma occurrences_absent (c : Z) (h : list Z) : ~ In c h -> occurrences c h = O.
Proof.
  unfold occurrences. induction h as [|a h IH]; intros Hc; [reflexivity|].
  rewrite filter_cons_False by (intros ->; apply Hc; left; reflexivity).
  apply IH. intros Hin. apply Hc. right. exact Hin.
Qed.

Lemma vote_fold (h cands : list Z) (best0 : Z) :
  let best := fold_left (fun best c => if (occurrences best h <? occurrences c h)%nat
                                       then c else best) cands best0 in
  In best (best0 :: cands) /\
  (forall c, In c (best0 :: cands) -> (occurrences c h <= occurrences best h)%nat) /\
  ((forall c, In c cands -> (occurrences c h <= occurrences best0 h)%nat) -> best = best0).
Proof.
  revert best0. induction cands as [|a cands IH]; intros best0; cbn [fold_left].
  - split; [left; reflexivity|]. split; [intros c [<-|[]]; lia | reflexivity].
  - destruct (Nat.ltb_spec (occurrences best0 h) (occurrences a h)) as [Hlt|Hge].
    + destruct (IH a) as (Hin & Hmax & _). split; [right; exact Hin|]. split.
      * intros c [<-|Hc]; [|apply Hmax, Hc].
        specialize (Hmax a (or_introl eq_refl)). lia.
      * intros Hall. specialize (Hall a (or_introl eq_refl)). lia.
    + destruct (IH best0) as (Hin & Hmax & Htie). split.
      * destruct Hin as [Hin|Hin]; [left; exact Hin | right; right; exact Hin].
      * split.
        -- intros c [<-|[<-|Hc]].
           ++ apply Hmax. left; reflexivity.
           ++ specialize (Hmax best0 (or_introl eq_refl)). lia.
           ++ apply Hmax. right; exact Hc.
        -- intros Hall. apply Htie. intros c Hc. apply Hall. right. exact Hc.
Qed.

(** C7: the layer keeps the last three predictions; what it emits is one of
    them, no class occurs more often among them, and when the newest
    prediction is among the most frequent it is the one emitted; the
    predictions 0, 0, 3, 0, 0 are smoothed to 0, 0, 0, 0, 0. *)
Theorem majority_of_last_three (history : list Z) (p : Z) :
  N = 3%nat /\
  push history p = drop (length history + 1 - N) history ++ [p] /\
  (length (push history p) <= N)%nat /\
  In (majority (push history p)) (push history p) /\
  (forall c, (occurrences c (push history p) <= occurrences (majority (push history p)) (push history p))%nat) /\
  ((forall c, (occurrences c (push history p) <= occurrences p (push history p))%nat) ->
   majority (push history p) = p) /\
  smooth [0; 0; 3; 0; 0] = [0; 0; 0; 0; 0].
Proof.
  split; [reflexivity|]. split; [apply push_snoc|].
  split; [rewrite push_snoc, length_app, length_drop; unfold N; cbn [length]; lia|].
  assert (exists older, rev (push history p) = p :: older) as [older Hrev].
  { rewrite push_snoc, rev_app_distr. eexists. reflexivity. }
  set (h := push history p) in *.
  unfold majority. rewrite Hrev.
  destruct (vote_fold h older p) as (Hin & Hmax & Htie).
  assert (forall c, In c (p :: older) <-> In c h) as Hmem.
  { intros c. rewrite <- Hrev. symmetry. apply in_rev. }
  split; [apply Hmem, Hin|]. split; [|split].
  - intros c. destruct (in_dec Z.eq_dec c h) as [Hc|Hc].
    + apply Hmax, Hmem, Hc.
    + rewrite (occurrences_absent c h Hc). lia.
  - intros Hall. apply Htie. intros c _. apply Hall.
  - reflexivity.
Qed.

(** After 0, 0 the spike 3 arrives: the two zeros outvote it. *)
Lemma majority_of_last_three_witness :
  majority (push [0; 0] 3) = 0 /\ majority (push [0; 3] 7) = 7.
Proof.
  split; [reflexivity|].
  destruct (majority_of_last_three [0; 3] 7) as (_ & _ & _ & _ & _ & Htie & _).
  apply Htie. intros c. unfold occurrences, push. cbn [app length Nat.sub N drop].
  rewrite !filter_cons, filter_nil.
  repeat case_decide; cbn [length]; lia.
Defined.

End Stability.

(** ** More on the window segmenter *)

Section SegmenterFrame.

(** The start indices that [range] yields leave room for a full window. *)
Lemma py_range_starts (len w : Z) (starts : list Z) :
  0 <= len ->
  py_range 0 (len - w + 1) (w / 2) = Ok starts ->
  Forall (fun i => 0 <= i /\ 0 <= w /\ i + w <= len) starts.
Proof.
  intros Hlen. unfold py_range.
  destruct (Z.eqb_spec (w / 2) 0) as [|E]; [discriminate|].
  destruct (half_nonzero w E) as [Hw|Hw].
  - assert (0 < w / 2) as Hs by (apply Z.div_str_pos; lia).
    destruct (Z.ltb_spec 0 (w / 2)); [|lia].
    rewrite range_up_spec by lia. intros Hr. injection Hr as <-.
    apply Forall_forall. intros i Hi. apply list_elem_of_In, in_map_iff in Hi.
    destruct Hi as (k & <- & Hk). apply in_seq in Hk.
    replace (len - w + 1 - 0 - 1) with (len - w) in Hk by lia.
    destruct (Z_le_gt_dec 0 ((len - w) / (w / 2) + 1)) as [Hc|Hc]; [|lia].
    destruct (window_fits len w (Z.of_nat k)) as [H0 H1]; [lia..|]. lia.
  - assert (w / 2 < 0) as Hs by (apply Z.div_lt_upper_bound; lia).
    destruct (Z.ltb_spec 0 (w / 2)); [lia|].
    rewrite range_down_empty by lia. intros Hr. injection Hr as <-. constructor.
Qed.

(** X1: whenever [range] yields start indices, every slice
    [iloc[i:i+window_size]] has [window_size] rows, so that the test
    [len(window) == window_size] of the loop rejects none of them. *)
Theorem window_length_test_passes {A} (activity_data : list A) (w : Z) (starts : list Z) :
  py_range 0 (Z.of_nat (length activity_data) - w + 1) (w / 2) = Ok starts ->
  Forall (fun i => Z.of_nat (length (iloc activity_data i (i + w))) = w) starts /\
  group_windows activity_data w = Ok (map (fun i => iloc activity_data i (i + w)) starts).
Proof.
  intros Hr.
  assert (Forall (fun i => Z.of_nat (length (iloc activity_data i (i + w))) = w) starts) as Hall.
  { eapply Forall_impl; [apply (py_range_starts _ w starts (Zle_0_nat _) Hr)|].
    cbn beta. intros i (Hi & Hw & Hfit).
    rewrite iloc_inside by lia. rewrite length_take_drop; lia. }
  split; [exact Hall|].
  unfold group_windows. rewrite Hr. cbn [mbind result_bind]. f_equal.
  apply filter_all. apply Forall_forall. intros window Hin.
  apply list_elem_of_In, in_map_iff in Hin. destruct Hin as (i & <- & Hi).
  rewrite Forall_forall in Hall. apply Hall, list_elem_of_In, Hi.
Qed.

Lemma window_length_test_passes_witness :
  group_windows (add_met_columns activity_met_mapping
                   [biking 0; biking 1; biking 2; biking 3; biking 4]) 3
  = Ok (map (fun i => iloc (add_met_columns activity_met_mapping
                              [biking 0; biking 1; biking 2; biking 3; biking 4]) i (i + 3))
          [0; 1; 2]).
Proof.
  apply (window_length_test_passes
           (add_met_columns activity_met_mapping
              [biking 0; biking 1; biking 2; biking 3; biking 4]) 3 [0; 1; 2]).
  reflexivity.
Defined.


(** *** Grouping *)

Lemma unique_from_spec {A} `{EqDecision A} (l seen : list A) :
  NoDup (unique_from seen l) /\
  forall x, x ∈ unique_from seen l <-> x ∈ l /\ x ∉ seen.
Proof.
  revert seen. induction l as [|a l IH]; intros seen; cbn [unique_from].
  - split; [apply NoDup_nil_2|]. intros x. rewrite elem_of_nil. tauto.
  - destruct (decide (a ∈ seen)) as [Ha|Ha].
    + destruct (IH seen) as [Hn Hx]. split; [exact Hn|].
      intros x. rewrite Hx, elem_of_cons. split; [tauto|].
      intros [[->|Hin] Hs]; [contradiction | tauto].
    + destruct (IH (a :: seen)) as [Hn Hx]. split.
      * apply NoDup_cons_2; [|exact Hn]. rewrite Hx, elem_of_cons. tauto.
      * intros x. rewrite !elem_of_cons, Hx, elem_of_cons.
        destruct (decide (x = a)) as [->|Hne]; tauto.
Qed.

Lemma unique_spec {A} `{EqDecision A} (l : list A) :
  NoDup (unique l) /\ forall x, x ∈ unique l <-> x ∈ l.
Proof.
  unfold unique. destruct (unique_from_spec l []) as [Hn Hx]. split; [exact Hn|].
  intros x. rewrite Hx, elem_of_nil. tauto.
Qed.

Lemma NoDup_flat_map {A B} (f : A -> list B) (l : list A) :
  NoDup l ->
  (forall x, x ∈ l -> NoDup (f x)) ->
  (forall x1 x2 y, x1 ∈ l -> x2 ∈ l -> y ∈ f x1 -> y ∈ f x2 -> x1 = x2) ->
  NoDup (flat_map f l).
Proof.
  induction 1 as [|a l Ha Hl IH]; intros Hf Hd; cbn [flat_map].
  - apply NoDup_nil_2.
  - apply NoDup_app. split; [apply Hf; left|]. split.
    + intros y Hy Hy'. apply list_elem_of_In, in_flat_map in Hy' as (x & Hx & Hyx).
      apply list_elem_of_In in Hx, Hyx.
      assert (a = x) as -> by (apply (Hd a x y); [left | right; exact Hx | exact Hy | exact Hyx]).
      contradiction.
    + apply IH.
      * intros x Hx. apply Hf. right. exact Hx.
      * intros x1 x2 y H1 H2. apply Hd; right; assumption.
Qed.

(** The group of a user and an activity, as the two nested selections
    compute it. *)
Lemma group_filter (df : list labelled) (u : Z) (a : string) :
  filter (fun r : labelled => activity r = a) (filter (fun r : labelled => user r = u) df)
  = filter (fun r : labelled => user r = u /\ activity r = a) df.
Proof.
  induction df as [|r df IH]; [reflexivity|].
  rewrite !(filter_cons _ r).
  destruct (decide (user r = u)) as [Hu|Hu].
  - rewrite (filter_cons _ r).
    destruct (decide (activity r = a)) as [Ha|Ha].
    + rewrite decide_True by tauto. f_equal. exact IH.
    + rewrite decide_False by tauto. exact IH.
  - rewrite decide_False by tauto. exact IH.
Qed.

Lemma in_groups (df : list labelled) (g : list labelled) :
  In g (groups df) <->
  exists r : labelled, In r df /\
    g = filter (fun r' : labelled => user r' = user r /\ activity r' = activity r) df.
Proof.
  unfold groups. rewrite in_flat_map. split.
  - intros (u & Hu & Hg). apply in_map_iff in Hg as (a & <- & Ha).
    apply list_elem_of_In, unique_spec, list_elem_of_In, in_map_iff in Ha
      as (r & <- & Hr).
    apply list_elem_of_In, list_elem_of_filter in Hr as [<- Hr].
    exists r. split; [apply list_elem_of_In, Hr|]. apply group_filter.
  - intros (r & Hr & ->). exists (user r). split.
    + apply list_elem_of_In, unique_spec, list_elem_of_In, in_map_iff.
      exists r. split; [reflexivity | exact Hr].
    + apply in_map_iff. exists (activity r). split; [apply group_filter|].
      apply list_elem_of_In, unique_spec, list_elem_of_In, in_map_iff.
      exists r. split; [reflexivity|].
      apply list_elem_of_In, list_elem_of_filter. split; [reflexivity|].
      apply list_elem_of_In, Hr.
Qed.

(** X2: the groups are exactly the selections of the rows of one user and
    one activity, for the pairs that occur in the frame: each group holds
    all rows of its pair in the order of the frame, also rows that are not
    neighbours there; it is not empty, every row lies in the group of its
    pair, and no group occurs twice. *)
Theorem groups_by_user_and_activity (df : list labelled) :
  (forall g, In g (groups df) <->
     exists r : labelled, In r df /\
       g = filter (fun r' : labelled => user r' = user r /\ activity r' = activity r) df) /\
  (forall g, In g (groups df) -> g <> []) /\
  (forall r : labelled, In r df -> exists g, In g (groups df) /\ In r g) /\
  NoDup (groups df).
Proof.
  split; [apply in_groups|]. split; [|split].
  - intros g Hg. apply in_groups in Hg as (r & Hr & ->). intros E.
    assert (r ∈ filter (fun r' : labelled => user r' = user r /\ activity r' = activity r) df)
      as Hin by (apply list_elem_of_filter; split; [tauto | apply list_elem_of_In, Hr]).
    rewrite E in Hin. apply elem_of_nil in Hin. exact Hin.
  - intros r Hr. eexists. split; [apply in_groups; exists r; split; [exact Hr | reflexivity]|].
    apply list_elem_of_In, list_elem_of_filter. split; [tauto | apply list_elem_of_In, Hr].
  - unfold groups. apply NoDup_flat_map.
    + apply unique_spec.
    + intros u Hu. apply NoDup_fmap_2_strong; [|apply unique_spec].
      intros a a' Ha Ha' E.
      apply unique_spec, list_elem_of_In, in_map_iff in Ha as (r & <- & Hr).
      assert (r ∈ filter (fun r0 : labelled => activity r0 = activity r)
                    (filter (fun r0 : labelled => user r0 = u) df)) as Hin
        by (apply list_elem_of_filter; split; [reflexivity | apply list_elem_of_In, Hr]).
      rewrite E in Hin. apply list_elem_of_filter in Hin as [Hin _]. exact Hin.
    + intros u u' g Hu Hu' Hg Hg'.
      apply list_elem_of_In, in_map_iff in Hg as (a & <- & Ha).
      apply list_elem_of_In, in_map_iff in Hg' as (a' & E & Ha').
      apply list_elem_of_In, unique_spec, list_elem_of_In, in_map_iff in Ha as (r & <- & Hr).
      assert (r ∈ filter (fun r0 : labelled => activity r0 = activity r)
                    (filter (fun r0 : labelled => user r0 = u) df)) as Hin
        by (apply list_elem_of_filter; split; [reflexivity | apply list_elem_of_In, Hr]).
      rewrite <- E in Hin. apply list_elem_of_filter in Hin as [_ Hin].
      apply list_elem_of_filter in Hin as [Hin' _].
      apply list_elem_of_In, list_elem_of_filter in Hr as [Hr' _]. congruence.
Qed.


(** *** Which columns the segmentation reads *)

Lemma filter_map_pres {A B} (f : A -> B) (P : B -> Prop) (Q : A -> Prop)
    `{forall b, Decision (P b)} `{forall a, Decision (Q a)} (l : list A) :
  (forall a, P (f a) <-> Q a) -> filter P (map f l) = map f (filter Q l).
Proof.
  intros HPQ. induction l as [|a l IH]; [reflexivity|].
  cbn [map]. rewrite !filter_cons.
  destruct (decide (P (f a))) as [Hp|Hp], (decide (Q a)) as [Hq|Hq];
    cbn [map]; rewrite ?IH; try reflexivity; exfalso; apply HPQ in Hp || apply HPQ in Hq;
    contradiction.
Qed.

Lemma iloc_map {A B} (f : A -> B) (data : list A) (start stop : Z) :
  iloc (map f data) start stop = map f (iloc data start stop).
Proof. unfold iloc. rewrite length_map, skipn_map, firstn_map. reflexivity. Qed.

Lemma group_windows_map {A B} (f : A -> B) (activity_data : list A) (w : Z) :
  group_windows (map f activity_data) w =
  match group_windows activity_data w with
  | Ok windows => Ok (map (map f) windows)
  | Raise e => Raise e
  end.
Proof.
  unfold group_windows. rewrite length_map.
  destruct (py_range _ _ _) as [starts|e]; [|reflexivity].
  cbn [mbind result_bind]. f_equal.
  rewrite (map_ext _ (fun i => map f (iloc activity_data i (i + w))))
    by (intros i; apply iloc_map).
  rewrite <- (map_map (fun i => iloc activity_data i (i + w)) (map f)).
  apply filter_map_pres. intros window. rewrite length_map. reflexivity.
Qed.

Lemma traverse_map {A A' B} (F : A' -> result B) (h : A -> A') (l : list A) :
  traverse F (map h l) = traverse (fun a => F (h a)) l.
Proof.
  induction l as [|a l IH]; [reflexivity|]. cbn [map traverse]. rewrite IH. reflexivity.
Qed.

Lemma traverse_ext {A B} (F G : A -> result B) (l : list A) :
  (forall a, F a = G a) -> traverse F l = traverse G l.
Proof.
  intros E. induction l as [|a l IH]; [reflexivity|]. cbn [traverse]. rewrite E, IH. reflexivity.
Qed.

Lemma traverse_post {A B C} (F : A -> result B) (p : B -> C) (l : list A) :
  traverse (fun a => match F a with Ok b => Ok (p b) | Raise e => Raise e end) l =
  match traverse F l with Ok bs => Ok (map p bs) | Raise e => Raise e end.
Proof.
  induction l as [|a l IH]; [reflexivity|]. cbn [traverse]. rewrite IH.
  destruct (F a) as [b|e]; [|reflexivity]. cbn [mbind result_bind].
  destruct (traverse F l) as [bs|e]; reflexivity.
Qed.

Lemma groups_map (f : labelled -> labelled) (df : list labelled) :
  (forall r : labelled, user (f r) = user r /\ activity (f r) = activity r) ->
  groups (map f df) = map (map f) (groups df).
Proof.
  intros Hf. unfold groups.
  assert (map (fun r : labelled => user r) (map f df) = map (fun r : labelled => user r) df)
    as -> by (rewrite map_map; apply map_ext; intros r; apply Hf).
  induction (unique (map (fun r : labelled => user r) df)) as [|u us IH]; [reflexivity|].
  cbn [flat_map]. rewrite map_app, IH. f_equal.
  rewrite (filter_map_pres f _ (fun r : labelled => user r = u))
    by (intros r; destruct (Hf r) as [-> _]; reflexivity).
  assert (forall l : list labelled,
            map (fun r : labelled => activity r) (map f l) =
            map (fun r : labelled => activity r) l) as ->
    by (intros l; rewrite map_map; apply map_ext; intros r; apply Hf).
  rewrite !map_map. apply map_ext. intros a.
  apply filter_map_pres. intros r. destruct (Hf r) as [_ ->]. reflexivity.
Qed.

Lemma frame_windows_map (f : labelled -> labelled) (df : list labelled) (w : Z) :
  (forall r : labelled, user (f r) = user r /\ activity (f r) = activity r) ->
  frame_windows (map f df) w =
  match frame_windows df w with
  | Ok windows => Ok (map (map f) windows)
  | Raise e => Raise e
  end.
Proof.
  intros Hf. unfold frame_windows. rewrite (groups_map f df Hf), traverse_map.
  rewrite (traverse_ext _ _ _ (fun g => group_windows_map f g w)), traverse_post.
  destruct (traverse _ (groups df)) as [wss|e]; [|reflexivity].
  cbn [mbind result_bind]. rewrite concat_map. reflexivity.
Qed.

Lemma create_features_map (f : labelled -> labelled) (df : list labelled)
    (extract : accel_data -> result (list spec_float)) (w : Z) :
  (forall r : labelled,
     user (f r) = user r /\ activity (f r) = activity r /\
     col_x (f r) = col_x r /\ col_y (f r) = col_y r /\ col_z (f r) = col_z r /\
     met_class (f r) = met_class r) ->
  create_features_from_dataframe (map f df) extract w =
  create_features_from_dataframe df extract w.
Proof.
  intros Hf. unfold create_features_from_dataframe.
  rewrite (frame_windows_map f df w) by (intros r; destruct (Hf r) as (? & ? & _); auto).
  destruct (frame_windows df w) as [windows|e]; [|reflexivity].
  cbn [mbind result_bind]. rewrite traverse_map.
  rewrite (traverse_ext _ (fun window =>
             feature_vector ← extract (accel_of_window window);
             label ← first_label window;
             Ok (feature_vector, label))); [reflexivity|].
  intros window.
  assert (accel_of_window (map f window) = accel_of_window window) as ->.
  { unfold accel_of_window. rewrite !map_map.
    f_equal; apply map_ext; intros r; apply Hf. }
  assert (first_label (map f window) = first_label window) as ->.
  { destruct window as [|r t]; [reflexivity|]. cbn [map first_label]. f_equal. apply Hf. }
  reflexivity.
Qed.

(** X3: the feature matrix and the labels depend on the columns user,
    activity, x, y, z and met_class only: two frames that agree on them row
    by row give the same result, whatever their timestamps and MET values
    are.  The timestamp is never read, so that a window is made of rows that
    follow each other in the group, not in time. *)
Theorem create_features_ignores_timestamps (df df' : list labelled)
    (extract : accel_data -> result (list spec_float)) (w : Z) :
  Forall2 (fun r r' : labelled =>
             user r = user r' /\ activity r = activity r' /\
             col_x r = col_x r' /\ col_y r = col_y r' /\ col_z r = col_z r' /\
             met_class r = met_class r') df df' ->
  create_features_from_dataframe df extract w = create_features_from_dataframe df' extract w.
Proof.
  intros H.
  set (f := fun r : labelled =>
              {| row := {| user := user r; activity := activity r; timestamp := 0;
                           col_x := col_x r; col_y := col_y r; col_z := col_z r |};
                 met_value := Float64.nan; met_class := met_class r |}).
  assert (forall r : labelled,
            user (f r) = user r /\ activity (f r) = activity r /\
            col_x (f r) = col_x r /\ col_y (f r) = col_y r /\ col_z (f r) = col_z r /\
            met_class (f r) = met_class r) as Hf by (intros r; repeat split).
  rewrite <- (create_features_map f df extract w Hf).
  rewrite <- (create_features_map f df' extract w Hf).
  f_equal. induction H as [|r r' df df' Hr _ IH]; [reflexivity|].
  cbn [map]. rewrite IH. f_equal. unfold f.
  destruct Hr as (-> & -> & -> & -> & -> & ->). reflexivity.
Qed.

(** Two rows recorded one tick apart, and the same rows an hour apart. *)
Lemma create_features_ignores_timestamps_witness :
  create_features_from_dataframe
    (add_met_columns activity_met_mapping [biking 0; biking 1]) extract_features 2 =
  create_features_from_dataframe
    (add_met_columns activity_met_mapping [biking 0; biking 72000]) extract_features 2.
Proof.
  apply create_features_ignores_timestamps.
  repeat constructor.
Defined.


(** *** The feature matrix *)

Lemma extract_features_returns (d : accel_data) :
  length (ax d) = length (ay d) -> length (ay d) = length (az d) ->
  (1 <= length (ax d))%nat ->
  exists fv, extract_features d = Ok fv /\ length fv = 16%nat.
Proof.
  intros Hxy Hyz Hlen. destruct (magnitude_of_same d Hxy Hyz) as (magnitude & Hmag & Hml).
  unfold extract_features. rewrite Hmag. cbn [mbind result_bind].
  destruct magnitude as [|m0 mt]; [cbn in Hml; lia|].
  cbn [np.min np.max mbind result_bind]. eexists. split; reflexivity.
Qed.

Lemma traverse_length {A B} (f : A -> result B) (l : list A) (bs : list B) :
  traverse f l = Ok bs -> length bs = length l.
Proof.
  intros H. apply traverse_inv in H. symmetry. eapply Forall2_length. exact H.
Qed.

Lemma frame_windows_count (df : list labelled) (w : Z) (windows : list (list labelled)) :
  w / 2 <> 0 ->
  frame_windows df w = Ok windows ->
  length windows =
  list_sum (map (fun g => window_count (Z.of_nat (length g)) w) (groups df)).
Proof.
  intros E. unfold frame_windows.
  destruct (traverse _ (groups df)) as [wss|e] eqn:Ht; [|discriminate].
  cbn [mbind result_bind]. intros H. injection H as <-.
  rewrite length_concat. f_equal.
  apply traverse_inv in Ht. induction Ht as [|g ws gs wss Hg _ IH]; [reflexivity|].
  cbn [map]. rewrite IH. f_equal.
  destruct (group_windows_spec g w E) as (ws' & Hg' & Hlen & _).
  rewrite Hg in Hg'. injection Hg' as <-. exact Hlen.
Qed.

(** The features of a frame: no exception, 16 numbers for each window. *)
Lemma create_features_rows (df : list labelled) (w : Z) :
  w / 2 <> 0 ->
  exists windows features labels,
    frame_windows df w = Ok windows /\
    create_features_from_dataframe df extract_features w = Ok (features, labels) /\
    length features = length windows /\
    length labels = length features /\
    Forall (fun fv => length fv = 16%nat) features.
Proof.
  intros E. unfold create_features_from_dataframe.
  destruct (frame_windows_spec df w E) as (windows & Hf & Hall).
  exists windows. rewrite Hf. cbn [mbind result_bind].
  destruct (traverse_total
              (fun window =>
                 feature_vector ← extract_features (accel_of_window window);
                 label ← first_label window;
                 Ok (feature_vector, label)) windows) as [rows Hr].
  { intros window Hin. destruct (Hall window Hin) as (Hlen & _).
    destruct (half_nonzero w E) as [Hw|Hw]; [|lia].
    destruct (extract_features_returns (accel_of_window window)) as (fv & -> & _).
    - cbn [accel_of_window ax ay]. rewrite !length_map. reflexivity.
    - cbn [accel_of_window ay az]. rewrite !length_map. reflexivity.
    - cbn [accel_of_window ax]. rewrite length_map. lia.
    - destruct window as [|r t]; [cbn in Hlen; lia|].
      cbn [mbind result_bind first_label]. eexists. reflexivity. }
  rewrite Hr. cbn [mbind result_bind]. eexists _, _. split; [reflexivity|].
  split; [reflexivity|].
  split; [rewrite length_map; apply (traverse_length _ _ _ Hr)|].
  split; [rewrite !length_map; reflexivity|].
  apply Forall_forall. intros fv Hfv.
    apply list_elem_of_In, in_map_iff in Hfv as ([fv' lab] & <- & Hin).
    apply traverse_inv in Hr.
    destruct (Forall2_in_r _ _ _ _ Hr Hin) as (window & Hwin & Hrow).
    destruct (Hall window Hwin) as (Hlen & _).
    destruct (half_nonzero w E) as [Hw|Hw]; [|lia].
    destruct (extract_features_returns (accel_of_window window)) as (fv & Hfv & Hl).
    + cbn [accel_of_window ax ay]. rewrite !length_map. reflexivity.
    + cbn [accel_of_window ay az]. rewrite !length_map. reflexivity.
    + cbn [accel_of_window ax]. rewrite length_map. lia.
    + rewrite Hfv in Hrow. cbn [mbind result_bind] in Hrow.
      destruct (first_label window); [|discriminate].
      cbn [mbind result_bind] in Hrow. injection Hrow as <- _. exact Hl.
Qed.

(** X4: for every window size other than 0 and 1 and every frame, the
    windows are cut and the features extracted without an exception; the
    result is a matrix with one row of 16 features for each window and as
    many labels, and the number of rows is the sum over the groups of
    max(0, (L - W) // (W // 2) + 1). *)
Theorem create_features_matrix (df : list labelled) (w : Z) :
  w / 2 <> 0 ->
  exists features labels,
    create_features_from_dataframe df extract_features w = Ok (features, labels) /\
    length labels = length features /\
    Forall (fun fv => length fv = 16%nat) features /\
    length features =
      list_sum (map (fun g => window_count (Z.of_nat (length g)) w) (groups df)).
Proof.
  intros E.
  destruct (create_features_rows df w E) as (windows & features & labels & Hw & H & Hn & Hl & H16).
  exists features, labels. split; [exact H|]. split; [exact Hl|]. split; [exact H16|].
  rewrite Hn. apply frame_windows_count; assumption.
Qed.

(** Five rows of one group and windows of two rows: four rows of features. *)
Lemma create_features_matrix_witness :
  exists features labels,
    create_features_from_dataframe
      (add_met_columns activity_met_mapping
         [biking 0; biking 1; biking 2; biking 3; biking 4]) extract_features 2
    = Ok (features, labels) /\
    length features = 4%nat /\ length labels = 4%nat.
Proof.
  destruct (create_features_matrix
              (add_met_columns activity_met_mapping
                 [biking 0; biking 1; biking 2; biking 3; biking 4]) 2)
    as (features & labels & H & Hl & _ & Hn).
  - discriminate.
  - exists features, labels. split; [exact H|].
    assert (length features = 4%nat) as Hf by (rewrite Hn; vm_compute; reflexivity).
    split; [exact Hf | rewrite Hl; exact Hf].
Defined.

Lemma groups_nonempty (df : list labelled) : df <> [] -> groups df <> [].
Proof.
  destruct df as [|r df]; [contradiction|]. intros _ E.
  assert (In (filter (fun r' : labelled => user r' = user r /\ activity r' = activity r)
                (r :: df)) (groups (r :: df))) as Hin.
  { apply in_groups. exists r. split; [left; reflexivity | reflexivity]. }
  rewrite E in Hin. destruct Hin.
Qed.

(** X5: with a window size of 0 or 1 the stride is 0: on a frame that has a
    row, [range] raises ValueError for the first group, before anything is
    extracted; an empty frame has no group, and two empty arrays are
    returned. *)
Theorem create_features_stride_zero (df : list labelled)
    (extract : accel_data -> result (list spec_float)) (w : Z) :
  w / 2 = 0 ->
  create_features_from_dataframe df extract w =
  match df with
  | [] => Ok ([], [])
  | _ :: _ => Raise (ValueError "range() arg 3 must not be zero")
  end.
Proof.
  intros E. destruct df as [|r df]; [reflexivity|].
  unfold create_features_from_dataframe, frame_windows.
  pose proof (groups_nonempty (r :: df) ltac:(discriminate)) as Hg.
  destruct (groups (r :: df)) as [|g gs]; [contradiction|].
  assert (group_windows g w = Raise (ValueError "range() arg 3 must not be zero")) as Hw
    by (unfold group_windows, py_range; rewrite E; reflexivity).
  cbn [traverse]. rewrite Hw. reflexivity.
Qed.

Lemma create_features_stride_zero_witness :
  create_features_from_dataframe
    (add_met_columns activity_met_mapping [biking 0; biking 1]) extract_features 1
  = Raise (ValueError "range() arg 3 must not be zero") /\
  create_features_from_dataframe [] extract_features 1 = Ok ([], []).
Proof.
  split.
  - apply (create_features_stride_zero
             (add_met_columns activity_met_mapping [biking 0; biking 1]) extract_features 1).
    reflexivity.
  - apply (create_features_stride_zero [] extract_features 1). reflexivity.
Defined.

End SegmenterFrame.

(** ** More on the feature extractor *)

Section ExtractorEdges.
Import Float64.

(** *** Which inputs are refused *)

(** The four cases of broadcasting two one-dimensional arrays. *)
Lemma broadcast_cases (op : spec_float -> spec_float -> spec_float) (a b : list spec_float) :
  (exists l, np.broadcast op a b = Ok l /\
     ((length a = length b /\ length l = length a) \/
      (length a <> length b /\ length a = 1%nat /\ length l = length b) \/
      (length a <> length b /\ length a <> 1%nat /\ length b = 1%nat /\ length l = length a)))
  \/ (np.broadcast op a b = Raise (ValueError "operands could not be broadcast together") /\
      length a <> length b /\ length a <> 1%nat /\ length b <> 1%nat).
Proof.
  unfold np.broadcast. destruct (decide (length a = length b)) as [E|E].
  - left. eexists. split; [reflexivity|]. left. split; [exact E|].
    rewrite length_zip_with. lia.
  - destruct a as [|a0 [|a1 a]].
    + destruct b as [|b0 [|b1 b]].
      * contradiction E; reflexivity.
      * left. eexists. split; [reflexivity|]. right. right. cbn. repeat split; lia.
      * right. cbn. repeat split; lia.
    + left. eexists. split; [reflexivity|]. right. left.
      rewrite length_map. cbn. cbn in E. repeat split; lia.
    + destruct b as [|b0 [|b1 b]].
      * right. cbn. repeat split; lia.
      * left. eexists. split; [reflexivity|]. right. right.
        rewrite length_map. cbn. repeat split; lia.
      * right. cbn. cbn in E. repeat split; lia.
Qed.

(** X6: what the extractor does with columns of any lengths.  NumPy
    stretches a column of one sample to the length of the others: when any
    two columns have the same length or one of them has one sample, and no
    column is empty, 16 features are returned; when a column is empty (the
    others being empty or of one sample) [np.min] raises ValueError on the
    empty magnitude; when two columns differ in length and neither has one
    sample, the sum of the squares raises ValueError. *)
Theorem extract_features_outcome (d : accel_data) :
  let lengths := [length (ax d); length (ay d); length (az d)] in
  let fit := forall a b : nat, a ∈ lengths -> b ∈ lengths -> a = b \/ a = 1%nat \/ b = 1%nat in
  (fit -> O ∉ lengths -> exists fv, extract_features d = Ok fv /\ length fv = 16%nat) /\
  (fit -> O ∈ lengths ->
   extract_features d =
     Raise (ValueError "zero-size array to reduction operation minimum which has no identity")) /\
  (~ fit ->
   extract_features d = Raise (ValueError "operands could not be broadcast together")).
Proof.
  intros lengths fit.
  assert (forall n : nat, n ∈ lengths <->
            n = length (ax d) \/ n = length (ay d) \/ n = length (az d)) as Hin.
  { intros n. unfold lengths. rewrite !elem_of_cons, elem_of_nil. tauto. }
  assert (fit <->
          (length (ax d) = length (ay d) \/ length (ax d) = 1%nat \/ length (ay d) = 1%nat) /\
          (length (ax d) = length (az d) \/ length (ax d) = 1%nat \/ length (az d) = 1%nat) /\
          (length (ay d) = length (az d) \/ length (ay d) = 1%nat \/ length (az d) = 1%nat))
    as Hfit.
  { unfold fit. split.
    - intros H. repeat split; apply H; apply Hin; auto.
    - intros (Hxy & Hxz & Hyz) a b Ha Hb. apply Hin in Ha, Hb.
      destruct Ha as [-> | [-> | ->]], Hb as [-> | [-> | ->]]; lia. }
  assert (O ∈ lengths <->
          length (ax d) = O \/ length (ay d) = O \/ length (az d) = O) as Hzero.
  { rewrite Hin. intuition congruence. }
  pose proof (broadcast_cases add (np.square (ax d)) (np.square (ay d))) as Hxy.
  rewrite !length_square in Hxy.
  unfold extract_features, magnitude_of.
  destruct Hxy as [(xy & Exy & Hxy)|(Exy & Hxy)]; rewrite Exy; cbn [mbind result_bind].
  - pose proof (broadcast_cases add xy (np.square (az d))) as Hxyz.
    rewrite !length_square in Hxyz.
    destruct Hxyz as [(xyz & Exyz & Hxyz)|(Exyz & Hxyz)]; rewrite Exyz; cbn [mbind result_bind].
    + assert (fit) as Hf by (apply Hfit; lia).
      destruct xyz as [|v0 vt].
      * cbn [map np.min mbind result_bind]. cbn [length] in Hxyz.
        split; [|split].
        -- intros _ Hnz. exfalso. apply Hnz, Hzero. lia.
        -- reflexivity.
        -- intros Hn. contradiction.
      * cbn [map np.min np.max mbind result_bind]. cbn [length] in Hxyz.
        split; [|split].
        -- intros _ _. eexists. split; reflexivity.
        -- intros _ Hz. exfalso. apply Hzero in Hz. lia.
        -- intros Hn. contradiction.
    + assert (~ fit) as Hf by (rewrite Hfit; lia).
      split; [|split]; [intros H; contradiction | intros H; contradiction | reflexivity].
  - assert (~ fit) as Hf by (rewrite Hfit; lia).
    split; [|split]; [intros H; contradiction | intros H; contradiction | reflexivity].
Qed.


(** *** The sign of a sample *)

Lemma mul_opp_opp (v : spec_float) : mul (SFopp v) (SFopp v) = mul v v.
Proof. destruct v as [[]|[]| |[] m e]; reflexivity. Qed.

Lemma square_flip (a a' : list spec_float) :
  Forall2 (fun v v' => v' = v \/ v' = SFopp v) a a' -> np.square a' = np.square a.
Proof.
  induction 1 as [|v v' a a' Hv _ IH]; [reflexivity|].
  unfold np.square in *. cbn [map]. rewrite IH. f_equal.
  destruct Hv as [->| ->]; [reflexivity | apply mul_opp_opp].
Qed.

(** X7: the samples enter the magnitude and the root mean squares through
    their squares only: when the sign of any samples is flipped, on any
    axis, the extractor raises what it raised before or returns a vector
    with the same mean, deviation, minimum, maximum and percentiles of the
    magnitude and the same three root mean squares. *)
Theorem magnitude_features_ignore_sign (d d' : accel_data) :
  Forall2 (fun v v' => v' = v \/ v' = SFopp v) (ax d) (ax d') ->
  Forall2 (fun v v' => v' = v \/ v' = SFopp v) (ay d) (ay d') ->
  Forall2 (fun v v' => v' = v \/ v' = SFopp v) (az d) (az d') ->
  magnitude_of d' = magnitude_of d /\
  match extract_features d, extract_features d' with
  | Ok fv, Ok fv' =>
      forall i : nat, i ∈ [3; 7; 8; 9; 10; 11; 12; 14; 15]%nat -> fv' !! i = fv !! i
  | Raise e, Raise e' => e' = e
  | _, _ => False
  end.
Proof.
  intros Hx Hy Hz.
  apply square_flip in Hx, Hy, Hz.
  assert (magnitude_of d' = magnitude_of d) as Hm
    by (unfold magnitude_of; rewrite Hx, Hy, Hz; reflexivity).
  split; [exact Hm|].
  unfold extract_features. rewrite Hm, Hx, Hy, Hz.
  destruct (magnitude_of d) as [magnitude|e]; [|reflexivity].
  cbn [mbind result_bind].
  destruct (np.min magnitude) as [min_magnitude|e]; [|reflexivity].
  cbn [mbind result_bind].
  destruct (np.max magnitude) as [max_magnitude|e]; [|reflexivity].
  cbn [mbind result_bind].
  intros i Hi. rewrite !elem_of_cons, elem_of_nil in Hi.
  destruct Hi as [->|[->|[->|[->|[->|[->|[->|[->|[->|[]]]]]]]]]]; reflexivity.
Qed.

(** Two samples, and the same with the first one mirrored on the x axis. *)
Lemma magnitude_features_ignore_sign_witness :
  magnitude_of {| ax := [SFopp one; of_Z 2]; ay := [zero; zero]; az := [lit 98 1; lit 98 1] |}
  = magnitude_of {| ax := [one; of_Z 2]; ay := [zero; zero]; az := [lit 98 1; lit 98 1] |}.
Proof.
  apply (magnitude_features_ignore_sign
           {| ax := [one; of_Z 2]; ay := [zero; zero]; az := [lit 98 1; lit 98 1] |}
           {| ax := [SFopp one; of_Z 2]; ay := [zero; zero]; az := [lit 98 1; lit 98 1] |});
    cbn [ax ay az]; repeat first [apply Forall2_nil | apply Forall2_cons]; auto.
Defined.

(** *** The zero-crossing count *)

Lemma length_diff_pred (l : list spec_float) : length (np.diff l) = (length l - 1)%nat.
Proof.
  induction l as [|a l IH]; [reflexivity|].
  destruct l as [|b l]; [reflexivity|]. cbn [np.diff length] in *. lia.
Qed.

(** X8: the zero-crossing count of a window of L samples is at least 0 and
    at most L - 1, whatever the samples are; it is 0 on an empty window and
    on a single sample. *)
Theorem zero_crossings_bounds (x : list spec_float) :
  0 <= zero_crossings x <= Z.max 0 (Z.of_nat (length x) - 1).
Proof.
  unfold zero_crossings, np.count_nonzero.
  pose proof (length_filter (fun v => nonzero v = true)
                (np.diff (map np.sign (map (fun v => sub v (np.mean x)) x)))) as H1.
  rewrite length_diff_pred, !length_map in H1. lia.
Qed.

(** *** Missing values *)

Lemma fold_add_nan (l : list spec_float) : fold_left add l nan = nan.
Proof. induction l as [|v l IH]; [reflexivity|]. cbn [fold_left]. exact IH. Qed.

Lemma add_nan_l (v : spec_float) : add nan v = nan.
Proof. reflexivity. Qed.

Lemma add_nan_r (v : spec_float) : add v nan = nan.
Proof. destruct v; reflexivity. Qed.

Lemma sum_nan (l : list spec_float) (acc : spec_float) :
  In nan l -> fold_left add l acc = nan.
Proof.
  revert acc. induction l as [|v l IH]; intros acc H; [destruct H|].
  cbn [fold_left]. destruct H as [->|H]; [|apply IH, H].
  rewrite add_nan_r. apply fold_add_nan.
Qed.

Lemma mean_nan (l : list spec_float) : In nan l -> np.mean l = nan.
Proof. intros H. unfold np.mean, np.sum. rewrite (sum_nan l zero H). reflexivity. Qed.

Lemma sub_nan_r (v : spec_float) : sub v nan = nan.
Proof. destruct v; reflexivity. Qed.

Lemma std_nan (l : list spec_float) : In nan l -> np.std l = nan.
Proof.
  intros H. unfold np.std. rewrite (mean_nan l H). unfold np.sum.
  rewrite sum_nan; [reflexivity|].
  destruct l as [|v l]; [destruct H|]. cbn [map zip_with]. left.
  rewrite sub_nan_r. reflexivity.
Qed.

Lemma square_nan (l : list spec_float) : In nan l -> In nan (np.square l).
Proof. intros H. unfold np.square. apply in_map_iff. exists nan. split; [reflexivity | exact H]. Qed.

Lemma fold_minimum_nan (l : list spec_float) : fold_left np.minimum l nan = nan.
Proof. induction l as [|v l IH]; [reflexivity|]. cbn [fold_left]. exact IH. Qed.

Lemma fold_maximum_nan (l : list spec_float) : fold_left np.maximum l nan = nan.
Proof. induction l as [|v l IH]; [reflexivity|]. cbn [fold_left]. exact IH. Qed.

Lemma minimum_nan_r (v : spec_float) : np.minimum v nan = nan.
Proof. destruct v as [[]|[]| |[] m e]; reflexivity. Qed.

Lemma maximum_nan_r (v : spec_float) : np.maximum v nan = nan.
Proof. destruct v as [[]|[]| |[] m e]; reflexivity. Qed.

Lemma min_nan (l : list spec_float) : In nan l -> np.min l = Ok nan.
Proof.
  destruct l as [|a0 t]; [intros []|]. cbn [np.min]. intros [->|H].
  - rewrite fold_minimum_nan. reflexivity.
  - f_equal. revert a0. induction t as [|v t IH]; intros a0; [destruct H|].
    cbn [fold_left]. destruct H as [->|H]; [|apply IH, H].
    rewrite minimum_nan_r. apply fold_minimum_nan.
Qed.

Lemma max_nan (l : list spec_float) : In nan l -> np.max l = Ok nan.
Proof.
  destruct l as [|a0 t]; [intros []|]. cbn [np.max]. intros [->|H].
  - rewrite fold_maximum_nan. reflexivity.
  - f_equal. revert a0. induction t as [|v t IH]; intros a0; [destruct H|].
    cbn [fold_left]. destruct H as [->|H]; [|apply IH, H].
    rewrite maximum_nan_r. apply fold_maximum_nan.
Qed.

Lemma percentile_nan (l : list spec_float) (q : Z) : In nan l -> np.percentile l q = nan.
Proof.
  intros H. unfold np.percentile.
  replace (existsb is_nan l) with true; [reflexivity|].
  symmetry. apply existsb_exists. exists nan. split; [exact H | reflexivity].
Qed.

Lemma count_nonzero_nans (n : nat) : np.count_nonzero (repeat nan n) = Z.of_nat n.
Proof.
  unfold np.count_nonzero. induction n as [|n IH]; [reflexivity|].
  cbn [repeat]. rewrite filter_cons_True by reflexivity. cbn [length]. lia.
Qed.

Lemma diff_nans (n : nat) : np.diff (repeat nan n) = repeat nan (n - 1).
Proof.
  induction n as [|n IH]; [reflexivity|].
  destruct n as [|n]; [reflexivity|].
  cbn [repeat np.diff] in *. rewrite IH. cbn. rewrite Nat.sub_0_r. reflexivity.
Qed.

Lemma zero_crossings_nan (x : list spec_float) :
  In nan x -> zero_crossings x = Z.of_nat (length x) - 1.
Proof.
  intros H. unfold zero_crossings. rewrite (mean_nan x H).
  assert (map np.sign (map (fun v => sub v nan) x) = repeat nan (length x)) as ->.
  { clear H. induction x as [|v x IH]; [reflexivity|].
    cbn [map length repeat]. rewrite IH, sub_nan_r. reflexivity. }
  rewrite diff_nans, count_nonzero_nans.
  destruct x as [|v x]; [destruct H|]. cbn [length]. lia.
Qed.

Lemma magnitude_nan (d : accel_data) (magnitude : list spec_float) :
  magnitude_of d = Ok magnitude ->
  length (ax d) = length (ay d) -> length (ay d) = length (az d) ->
  In nan (ax d) \/ In nan (ay d) \/ In nan (az d) -> In nan magnitude.
Proof.
  intros Hm Hxy Hyz Hnan. unfold magnitude_of in Hm.
  rewrite broadcast_same in Hm by (rewrite !length_square; exact Hxy).
  cbn [mbind result_bind] in Hm.
  rewrite broadcast_same in Hm by (rewrite length_zip_with, !length_square; lia).
  cbn [mbind result_bind] in Hm. injection Hm as <-.
  unfold np.square.
  destruct d as [x y z]. cbn [ax ay az] in *.
  revert y z Hxy Hyz Hnan. induction x as [|x0 x IH]; intros [|y0 y] [|z0 z] Hxy Hyz Hnan;
    try discriminate; cbn [length] in *.
  - destruct Hnan as [[]|[[]|[]]].
  - cbn [map zip_with].
    assert (x0 = nan \/ y0 = nan \/ z0 = nan \/ (In nan x \/ In nan y \/ In nan z)) as Hc
      by (cbn [In] in Hnan; intuition auto).
    destruct Hc as [->|[->|[->|Hc]]].
    + left. change (mul nan nan) with nan. rewrite !add_nan_l. reflexivity.
    + left. change (mul nan nan) with nan. rewrite add_nan_r, add_nan_l. reflexivity.
    + left. change (mul nan nan) with nan. rewrite add_nan_r. reflexivity.
    + right. apply (IH y z); [lia | lia | exact Hc].
Qed.

(** X9: a missing value among the samples raises nothing.  On three
    columns of one length, a NaN on the x axis makes the mean, the deviation
    and the root mean square of x NaN, and with them the six features of the
    magnitude; the zero-crossing count is then L - 1, since every difference
    of signs is NaN, which is not equal to 0. *)
Theorem extract_features_nan (d : accel_data) :
  length (ax d) = length (ay d) -> length (ay d) = length (az d) ->
  In nan (ax d) ->
  exists fv,
    extract_features d = Ok fv /\
    (forall i : nat, i ∈ [0; 4; 10; 3; 7; 8; 9; 14; 15]%nat -> fv !! i = Some nan) /\
    fv !! 13%nat = Some (of_Z (Z.of_nat (length (ax d)) - 1)).
Proof.
  intros Hxy Hyz Hnan.
  destruct (magnitude_of_same d Hxy Hyz) as (magnitude & Hmag & _).
  pose proof (magnitude_nan d magnitude Hmag Hxy Hyz (or_introl Hnan)) as Hm.
  unfold extract_features. rewrite Hmag. cbn [mbind result_bind].
  rewrite (min_nan _ Hm), (max_nan _ Hm). cbn [mbind result_bind].
  eexists. split; [reflexivity|].
  rewrite (mean_nan _ Hnan), (std_nan _ Hnan), (mean_nan _ Hm), (std_nan _ Hm),
    (mean_nan _ (square_nan _ Hnan)), !(percentile_nan _ _ Hm), (zero_crossings_nan _ Hnan).
  split; [|reflexivity].
  intros i Hi. rewrite !elem_of_cons, elem_of_nil in Hi.
  destruct Hi as [->|[->|[->|[->|[->|[->|[->|[->|[->|[]]]]]]]]]]; reflexivity.
Qed.

(** Three samples, the second of which is missing on the x axis. *)
Lemma extract_features_nan_witness :
  exists fv,
    extract_features {| ax := [one; nan; one]; ay := [zero; zero; zero];
                        az := [lit 98 1; lit 98 1; lit 98 1] |} = Ok fv /\
    fv !! 0%nat = Some nan /\ fv !! 13%nat = Some (of_Z 2).
Proof.
  destruct (extract_features_nan
              {| ax := [one; nan; one]; ay := [zero; zero; zero];
                 az := [lit 98 1; lit 98 1; lit 98 1] |})
    as (fv & H & Hn & Hz).
  - reflexivity.
  - reflexivity.
  - cbn [ax In]. auto.
  - exists fv. split; [exact H|]. split; [|exact Hz].
    apply Hn. rewrite elem_of_cons. left. reflexivity.
Defined.

End ExtractorEdges.

(** *** The sign of the features *)

Section ExtractorSigns.
Import Float64 Float64Facts Float64Arith Float64Bounds.






End ExtractorSigns.

(** ** More on the classifier wrapper *)

Section PredictOutcomes.









End PredictOutcomes.

(** ** Training *)

Section TrainOutcomes.

Variable train_test_split :
  list (list spec_float) -> list Z ->
  result (list (list spec_float) * list (list spec_float) * list Z * list Z).
Variable scaler_fit : list (list spec_float) -> StandardScaler.
Variable forest_fit : list (list spec_float) -> list Z -> RandomForestClassifier.

Lemma accuracy_score_bounds (y_true y_pred : list Z) :
  (0 <= accuracy_score y_true y_pred <= 1)%Q.
Proof.
  unfold accuracy_score.
  set (hits := filter (fun p : Z * Z => p.1 = p.2) (zip y_true y_pred)).
  assert (length hits <= length y_true)%nat as Hle.
  { unfold hits. etransitivity; [apply length_filter|]. rewrite length_zip_with. lia. }
  destruct (length y_true) as [|n] eqn:Hn.
  - replace (length hits) with O by lia. cbn. split; discriminate.
  - assert (0 < inject_Z (Z.of_nat (S n)))%Q as Hpos
      by (change 0%Q with (inject_Z 0); rewrite <- Zlt_Qlt; lia).
    assert (0 <= inject_Z (Z.of_nat (length hits)))%Q as H0
      by (change 0%Q with (inject_Z 0); rewrite <- Zle_Qle; lia).
    assert (inject_Z (Z.of_nat (length hits)) <= inject_Z (Z.of_nat (S n)))%Q as H1
      by (rewrite <- Zle_Qle; lia).
    split.
    + apply Qle_shift_div_l; [exact Hpos|]. lra.
    + apply Qle_shift_div_r; [exact Hpos|]. lra.
Qed.

Lemma traverse_all_ok {A B} (f : A -> result B) (l : list A) (bs : list B) (a : A) :
  traverse f l = Ok bs -> In a l -> exists b, f a = Ok b.
Proof.
  intros H Hin. apply traverse_inv in H.
  induction H as [|a' b l bs Hab _ IH]; [destruct Hin|].
  destruct Hin as [->|Hin]; [eauto | auto].
Qed.

Lemma train_ok_state (self self' : METPredictor) (X : list (list spec_float)) (y : list Z)
    (names : list string) (accuracy : Q) :
  train train_test_split scaler_fit forest_fit self X y names = (self', Ok accuracy) ->
  exists m s,
    self' = {| model := Some m; scaler := Some s; feature_names := Some names;
               met_classes := met_classes self |}.
Proof.
  unfold train.
  destruct (train_test_split X y) as [[[[X_train X_test] y_train] y_test]|e]; [|discriminate].
  destruct (traverse _ X_train) as [X_train_scaled|e]; [|discriminate].
  destruct (traverse _ X_test) as [X_test_scaled|e]; [|discriminate].
  intros H. injection H as <- _. eexists _, _. reflexivity.
Qed.

(** X12: what holds when [train] returns.  The scaler is fitted on the
    training part only and the test part is scaled with it; the forest is
    fitted on the scaled training part; scaler, forest and feature names are
    stored and the class names are left as they were; the returned accuracy
    is the share of the test labels that the forest predicts, a number
    between 0 and 1; and every test label and every predicted class has a
    name in [met_classes], since the names are looked up for the report. *)
Theorem train_returns (self self' : METPredictor) (X : list (list spec_float)) (y : list Z)
    (names : list string) (accuracy : Q) :
  train train_test_split scaler_fit forest_fit self X y names = (self', Ok accuracy) ->
  exists X_train X_test y_train y_test X_train_scaled X_test_scaled y_pred,
    train_test_split X y = Ok (X_train, X_test, y_train, y_test) /\
    traverse (scaler_transform (scaler_fit X_train)) X_train = Ok X_train_scaled /\
    traverse (scaler_transform (scaler_fit X_train)) X_test = Ok X_test_scaled /\
    self' = {| model := Some (forest_fit X_train_scaled y_train);
               scaler := Some (scaler_fit X_train);
               feature_names := Some names;
               met_classes := met_classes self |} /\
    traverse (forest_predict (forest_fit X_train_scaled y_train)) X_test_scaled = Ok y_pred /\
    accuracy = accuracy_score y_test y_pred /\
    (0 <= accuracy <= 1)%Q /\
    forall c, In c (y_test ++ y_pred) -> exists name, dict_get (met_classes self) c = Ok name.
Proof.
  unfold train. intros H.
  destruct (train_test_split X y) as [[[[X_train X_test] y_train] y_test]|e]; [|discriminate].
  destruct (traverse _ X_train) as [X_train_scaled|e] eqn:Ht; [|discriminate].
  destruct (traverse _ X_test) as [X_test_scaled|e] eqn:Hs; [|discriminate].
  injection H as <- H. cbn [met_classes] in H.
  destruct (traverse (forest_predict _) X_test_scaled) as [y_pred|e] eqn:Hp;
    cbn [mbind result_bind] in H; [|discriminate].
  destruct (traverse (dict_get (met_classes self)) _) as [target_names|e] eqn:Hn;
    cbn [mbind result_bind] in H; [|discriminate].
  injection H as <-.
  exists X_train, X_test, y_train, y_test, X_train_scaled, X_test_scaled, y_pred.
  split; [reflexivity|]. split; [exact Ht|]. split; [exact Hs|]. split; [reflexivity|].
  split; [exact Hp|]. split; [reflexivity|]. split; [apply accuracy_score_bounds|].
  intros c Hc. apply (traverse_all_ok _ _ _ c Hn).
  apply list_elem_of_In, unique_spec, list_elem_of_In, Hc.
Qed.

(** X13: [train] assigns to the predictor as it goes.  When it raises, the
    predictor is unchanged only if the split raised; otherwise the new
    scaler is already stored, and when the exception comes from the
    evaluation (as KeyError does for a class without a name) the forest and
    the feature names are stored too: [predict] no longer raises "Model not
    trained or loaded" although [train] did not return. *)
Theorem train_raises_after_assignments (self self' : METPredictor)
    (X : list (list spec_float)) (y : list Z) (names : list string) (e : exn) :
  train train_test_split scaler_fit forest_fit self X y names = (self', Raise e) ->
  (train_test_split X y = Raise e /\ self' = self) \/
  exists X_train X_test y_train y_test,
    train_test_split X y = Ok (X_train, X_test, y_train, y_test) /\
    scaler self' <> None /\
    met_classes self' = met_classes self /\
    ((model self' = model self /\ feature_names self' = feature_names self /\
      (traverse (scaler_transform (scaler_fit X_train)) X_train = Raise e \/
       traverse (scaler_transform (scaler_fit X_train)) X_test = Raise e)) \/
     (exists X_train_scaled,
        traverse (scaler_transform (scaler_fit X_train)) X_train = Ok X_train_scaled /\
        scaler self' = Some (scaler_fit X_train) /\
        model self' = Some (forest_fit X_train_scaled y_train) /\
        feature_names self' = Some names /\
        forall features, predict self' features <> Raise not_trained)).
Proof.
  unfold train.
  destruct (train_test_split X y) as [[[[X_train X_test] y_train] y_test]|e0].
  - intros H. right. exists X_train, X_test, y_train, y_test. split; [reflexivity|].
    destruct (traverse _ X_train) as [X_train_scaled|e1] eqn:Ht.
    + destruct (traverse _ X_test) as [X_test_scaled|e2] eqn:Hs.
      * injection H as <- _. cbn [scaler met_classes model feature_names].
        split; [discriminate|]. split; [reflexivity|]. right.
        exists X_train_scaled. repeat split.
        intros features. rewrite predict_not_trained_iff. cbn [model scaler].
        intros [E|E]; discriminate E.
      * injection H as <- <-. cbn [scaler met_classes model feature_names].
        split; [discriminate|]. split; [reflexivity|]. left. auto.
    + injection H as <- <-. cbn [scaler met_classes model feature_names].
      split; [discriminate|]. split; [reflexivity|]. left. auto.
  - intros H. injection H as <- <-. left. auto.
Qed.

End TrainOutcomes.

(** A new predictor trained with the stand-in fitting procedures on one row
    of label 0. *)
Lemma train_returns_witness :
  exists self',
    train whole_split const_scaler_fit const_forest_fit init
      [repeat Float64.zero 16] [0] get_feature_names = (self', Ok 1%Q) /\
    model self' = Some wisdm_forest /\ feature_names self' = Some get_feature_names.
Proof.
  eexists. split; [reflexivity|].
  destruct (train_returns whole_split const_scaler_fit const_forest_fit init _
              [repeat Float64.zero 16] [0] get_feature_names 1%Q eq_refl)
    as (X_train & X_test & y_train & y_test & X_train_scaled & X_test_scaled & y_pred
        & _ & _ & _ & -> & _).
  split; reflexivity.
Defined.

(** The same training data with the label 7, which has no name: [train]
    raises KeyError, and the predictor predicts. *)
Lemma train_raises_after_assignments_witness :
  exists self',
    train whole_split const_scaler_fit const_forest_fit init
      [repeat Float64.zero 16] [7] get_feature_names = (self', Raise KeyError) /\
    predict self' (repeat Float64.zero 16) <> Raise not_trained.
Proof.
  eexists. split; [reflexivity|].
  destruct (train_raises_after_assignments whole_split const_scaler_fit const_forest_fit init _
              [repeat Float64.zero 16] [7] get_feature_names KeyError eq_refl)
    as [[H _]|(X_train & X_test & y_train & y_test & _ & _ & _ & [(H & _)|(Xs & _ & _ & _ & _ & H)])].
  - discriminate H.
  - discriminate H.
  - apply H.
Defined.

(** ** Saving without feature names *)

Section PersistenceEdges.

(** X14: [save_model] on a predictor that has no feature names, as a new
    one, raises TypeError at [len(self.feature_names)], after it has written
    the two pickles: they hold the predictor's classifier and scaler (None
    for a new predictor), and the metadata file is as it was.  [load_model]
    on that directory assigns the two pickled objects before it reads the
    metadata: it raises FileNotFoundError when there is no metadata file, and
    returns with the names of an older metadata file when there is one.
    Either way, if the saved predictor had no classifier, the loading one
    has none afterwards, and its [predict] raises "Model not trained or
    loaded" even if it was trained before. *)
Theorem save_without_feature_names (p self : METPredictor) (fs : gmap string file)
    (dir : string) :
  feature_names p = None ->
  exists fs',
    save_model p fs dir = (fs', Raise TypeError) /\
    fs' !! path_join dir "met_model.pkl" = Some (Pickle_model (model p)) /\
    fs' !! path_join dir "scaler.pkl" = Some (Pickle_scaler (scaler p)) /\
    fs' !! path_join dir "model_metadata.json" = fs !! path_join dir "model_metadata.json" /\
    (fs !! path_join dir "model_metadata.json" = None ->
     load_model self fs' dir =
       ({| model := model p; scaler := scaler p;
           feature_names := feature_names self; met_classes := met_classes self |},
        Raise (FileNotFoundError (path_join dir "model_metadata.json")))) /\
    (forall md classes,
       fs !! path_join dir "model_metadata.json" = Some (Json md) ->
       int_keys (md_met_classes md) = Ok classes ->
       load_model self fs' dir =
         ({| model := model p; scaler := scaler p;
             feature_names := Some (md_feature_names md); met_classes := classes |},
          Ok tt)) /\
    (model p = None ->
     forall self' r features,
       load_model self fs' dir = (self', r) -> predict self' features = Raise not_trained).
Proof.
  intros Hn. unfold save_model. rewrite Hn. eexists. split; [reflexivity|].
  set (fs' := <[path_join dir "scaler.pkl" := Pickle_scaler (scaler p)]>
                (<[path_join dir "met_model.pkl" := Pickle_model (model p)]> fs)).
  assert (fs' !! path_join dir "met_model.pkl" = Some (Pickle_model (model p))) as Hm.
  { unfold fs'. rewrite lookup_insert_ne by (apply path_join_ne; discriminate).
    apply lookup_insert_eq. }
  assert (fs' !! path_join dir "scaler.pkl" = Some (Pickle_scaler (scaler p))) as Hs
    by apply lookup_insert_eq.
  assert (fs' !! path_join dir "model_metadata.json" =
          fs !! path_join dir "model_metadata.json") as Hj.
  { unfold fs'. rewrite !lookup_insert_ne by (apply path_join_ne; discriminate). reflexivity. }
  split; [exact Hm|]. split; [exact Hs|]. split; [exact Hj|].
  split; [|split].
  - intros Hnone. unfold load_model. rewrite Hm, Hs, Hj, Hnone. reflexivity.
  - intros md classes Hmd Hk. unfold load_model. rewrite Hm, Hs, Hj, Hmd, Hk. reflexivity.
  - intros Hp self' r features. unfold load_model. rewrite Hm, Hs, Hp.
    intros H. apply predict_not_trained_iff. left.
    destruct (fs' !! path_join dir "model_metadata.json") as [[m|s|md]|];
      try (injection H as <- _; reflexivity).
    destruct (int_keys (md_met_classes md)); injection H as <- _; reflexivity.
Qed.

(** The trained predictor of the examples loads from a directory that a new
    predictor tried to save into. *)
Lemma save_without_feature_names_witness :
  exists self',
    load_model wisdm_predictor (fst (save_model init ∅ "models/trained")) "models/trained"
    = (self', Raise (FileNotFoundError "models/trained/model_metadata.json")) /\
    predict self' (repeat Float64.zero 16) = Raise not_trained.
Proof.
  destruct (save_without_feature_names init wisdm_predictor ∅ "models/trained" eq_refl)
    as (fs' & Hsave & _ & _ & _ & Hload & _ & Hpred).
  assert (fst (save_model init ∅ "models/trained") = fs') as -> by (rewrite Hsave; reflexivity).
  eexists. split; [apply Hload; reflexivity|].
  apply (Hpred eq_refl _ _ _ (Hload eq_refl)).
Defined.

End PersistenceEdges.

(** ** Reading the raw data *)

Section DataFile.

Lemma prefix_append (sub s : string) :
  String.prefix sub s = true <-> exists post, s = sub +:+ post.
Proof.
  revert sub. induction s as [|b s IH]; intros [|a sub]; cbn [String.prefix].
  - split; [intros _; exists EmptyString; reflexivity | reflexivity].
  - split; [discriminate | intros [post H]; discriminate H].
  - split; [intros _; exists (String b s); reflexivity | reflexivity].
  - destruct (ascii_dec a b) as [->|Hne].
    + rewrite IH. split; intros [post H]; exists post.
      * cbn. rewrite H. reflexivity.
      * cbn in H. injection H as H. exact H.
    + split; [discriminate|]. intros [post H]. cbn in H. injection H as H _.
      contradiction Hne. symmetry. exact H.
Qed.

Lemma contains_append (sub s : string) :
  contains sub s = true <-> exists pre post, s = pre +:+ sub +:+ post.
Proof.
  induction s as [|c s IH]; cbn [contains]; rewrite orb_true_iff, prefix_append.
  - split.
    + intros [[post H]|H]; [|discriminate]. exists EmptyString, post. exact H.
    + intros (pre & post & H). left. destruct pre as [|a pre]; [|discriminate H].
      exists post. exact H.
  - rewrite IH. split.
    + intros [[post H]|(pre & post & H)].
      * exists EmptyString, post. exact H.
      * exists (String c pre), post. cbn. rewrite H. reflexivity.
    + intros (pre & post & H). destruct pre as [|a pre].
      * left. exists post. exact H.
      * right. cbn in H. injection H as _ H. exists pre, post. exact H.
Qed.

Lemma endswith_append (s suffix : string) :
  endswith s suffix = true <-> exists pre, s = pre +:+ suffix.
Proof.
  induction s as [|c s IH]; cbn [endswith]; rewrite orb_true_iff, String.eqb_eq.
  - split.
    + intros [H|H]; [|discriminate]. exists EmptyString. exact H.
    + intros [pre H]. left. destruct pre; [exact H | discriminate H].
  - rewrite IH. split.
    + intros [H|[pre H]].
      * exists EmptyString. exact H.
      * exists (String c pre). cbn. rewrite H. reflexivity.
    + intros [pre H]. destruct pre as [|a pre].
      * left. exact H.
      * right. cbn in H. injection H as _ H. exists pre. exact H.
Qed.

Lemma find_none_iff {A} (p : A -> bool) (l : list A) :
  find p l = None <-> forall a, In a l -> p a = false.
Proof.
  split; [apply find_none|]. induction l as [|a l IH]; [reflexivity|].
  intros H. cbn [find]. rewrite (H a (or_introl eq_refl)).
  apply IH. intros b Hb. apply H. right. exact Hb.
Qed.

Lemma find_first {A} (p : A -> bool) (pre post : list A) (a : A) :
  (forall b, In b pre -> p b = false) -> p a = true -> find p (pre ++ a :: post) = Some a.
Proof.
  induction pre as [|b pre IH]; intros Hpre Ha; cbn [app find].
  - rewrite Ha. reflexivity.
  - rewrite (Hpre b (or_introl eq_refl)). apply IH; [|exact Ha].
    intros b' Hb'. apply Hpre. right. exact Hb'.
Qed.

Lemma find_data_file_from (walk : list (string * list string * list string))
    (start : option string) :
  (forall root dirs files file,
     In (root, dirs, files) walk -> In file files -> wisdm_file file = false) ->
  fold_left (fun data_file '(root, dirs, files) =>
               match find wisdm_file files with
               | Some file => Some (path_join root file)
               | None => data_file
               end) walk start = start.
Proof.
  revert start. induction walk as [|[[root dirs] files] walk IH]; intros start H; [reflexivity|].
  cbn [fold_left].
  replace (find wisdm_file files) with (@None string).
  - apply IH. intros r d fs f Hin. apply (H r d fs f). right. exact Hin.
  - symmetry. apply find_none_iff. intros f Hf. apply (H root dirs files f); [left; reflexivity | exact Hf].
Qed.

(** X15: which file the loader reads.  A file counts when its name holds
    "WISDM" and ends in ".txt".  No data file is found (and the synthetic
    data set is made) exactly when no directory of the walk lists such a
    file.  Otherwise the file found is the first such file of the last
    directory that lists one: the [break] ends the scan of one directory
    only, and a later directory overrides an earlier one. *)
Theorem find_data_file_last_directory (walk : list (string * list string * list string)) :
  (forall file,
     wisdm_file file = true <->
     (exists pre post, file = pre +:+ "WISDM" +:+ post) /\ (exists stem, file = stem +:+ ".txt")) /\
  (find_data_file walk = None <->
   forall root dirs files file,
     In (root, dirs, files) walk -> In file files -> wisdm_file file = false) /\
  (forall before root dirs files after pre file post,
     walk = before ++ (root, dirs, files) :: after ->
     files = pre ++ file :: post ->
     wisdm_file file = true ->
     (forall f, In f pre -> wisdm_file f = false) ->
     (forall r d fs f, In (r, d, fs) after -> In f fs -> wisdm_file f = false) ->
     find_data_file walk = Some (path_join root file)).
Proof.
  split; [|split].
  - intros file. unfold wisdm_file.
    rewrite andb_true_iff, contains_append, endswith_append. reflexivity.
  - split.
    + unfold find_data_file. generalize (@None string) at 1 as start.
      induction walk as [|[[root dirs] files] walk IH] using rev_ind; intros start H.
      * intros r d fs f [].
      * rewrite fold_left_app in H. cbn [fold_left] in H.
        destruct (find wisdm_file files) as [file|] eqn:Hf; [discriminate H|].
        intros r d fs f Hin Hfile. apply in_app_or in Hin as [Hin|[Hin|[]]].
        -- apply (IH _ H r d fs f Hin Hfile).
        -- injection Hin as <- <- <-. apply (find_none _ _ Hf), Hfile.
    + intros H. apply find_data_file_from, H.
  - intros before root dirs files after pre file post -> -> Hfile Hpre Hafter.
    unfold find_data_file. rewrite fold_left_app. cbn [fold_left].
    rewrite (find_first _ pre post file Hpre Hfile).
    apply find_data_file_from, Hafter.
Qed.

End DataFile.

(** *** The fallback reader *)

Section LineParser.

Lemma count_lstrip (strip : ascii -> bool) (c : ascii) (s : string) :
  strip c = false -> count_char c (lstrip_with strip s) = count_char c s.
Proof.
  intros Hc. induction s as [|a s IH]; [reflexivity|]. cbn [lstrip_with].
  destruct (strip a) eqn:Ha; [|reflexivity]. rewrite IH. cbn [count_char].
  destruct (Ascii.eqb_spec a c) as [->|_]; [congruence | reflexivity].
Qed.

Lemma count_rstrip (strip : ascii -> bool) (c : ascii) (s : string) :
  strip c = false -> count_char c (rstrip_with strip s) = count_char c s.
Proof.
  intros Hc. induction s as [|a s IH]; [reflexivity|]. cbn [rstrip_with count_char].
  rewrite <- IH. destruct (rstrip_with strip s) as [|b t]; [|reflexivity].
  destruct (strip a) eqn:Ha; [|reflexivity]. cbn [count_char].
  destruct (Ascii.eqb_spec a c) as [->|_]; [congruence | reflexivity].
Qed.

Lemma split_fields (sep : ascii) (s : string) :
  length (split sep s) = S (count_char sep s) /\
  Forall (fun part => count_char sep part = O) (split sep s).
Proof.
  induction s as [|a s [IHl IHf]]; cbn [split count_char].
  - split; [reflexivity | repeat constructor].
  - destruct (Ascii.eqb a sep) eqn:Ha.
    + split; [cbn [length]; rewrite IHl; reflexivity | constructor; [reflexivity | exact IHf]].
    + destruct (split sep s) as [|part parts]; [discriminate IHl|].
      split; [exact IHl|]. apply Forall_cons in IHf as [Hp Hps].
      constructor; [|exact Hps]. cbn [count_char]. rewrite Ha. exact Hp.
Qed.

Lemma parse_line_spec (line : string) :
  (parse_line line = None <-> (count_char "," line < 5)%nat) /\
  (forall row, parse_line line = Some row ->
     length row = 6%nat /\ Forall (fun field => count_char "," field = O) row).
Proof.
  unfold parse_line.
  set (stripped := rstrip_with (Ascii.eqb ";") (rstrip_with isspace (lstrip_with isspace line))).
  assert (count_char "," stripped = count_char "," line) as Hc.
  { unfold stripped.
    rewrite !count_rstrip, count_lstrip by reflexivity. reflexivity. }
  destruct (split_fields "," stripped) as [Hl Hf]. rewrite Hc in Hl.
  destruct (Nat.leb_spec 6 (length (split "," stripped))) as [Hle|Hlt].
  - split; [split; [discriminate | lia]|].
    intros row H. injection H as <-.
    split; [rewrite length_take; lia | apply Forall_take, Hf].
  - split; [split; [lia | reflexivity]|]. intros row H. discriminate H.
Qed.

(** X16: what the fallback reader keeps of the lines of the file.  White
    space at both ends of a line and then semicolons at its end are removed,
    and the rest is cut at the commas.  A line gives a row exactly when it
    holds at least five commas; the row has six fields, none of which holds
    a comma, and what follows the sixth field is dropped.  Other lines are
    skipped without an error. *)
Theorem parse_lines_rows (lines : list string) (line : string) :
  (parse_line line = None <-> (count_char "," line < 5)%nat) /\
  (forall row, parse_line line = Some row ->
     row = take 6 (split "," (rstrip_with (Ascii.eqb ";")
                               (rstrip_with isspace (lstrip_with isspace line)))) /\
     length row = 6%nat /\ Forall (fun field => count_char "," field = O) row) /\
  Forall (fun row => length row = 6%nat /\ Forall (fun field => count_char "," field = O) row)
    (parse_lines lines) /\
  length (parse_lines lines) =
    length (filter (fun line => (5 <= count_char "," line)%nat) lines).
Proof.
  split; [apply parse_line_spec|]. split; [|split].
  - intros row H. split; [|apply (parse_line_spec line), H].
    unfold parse_line in H. destruct (6 <=? _)%nat; [|discriminate H].
    injection H as <-. reflexivity.
  - apply Forall_forall. intros row Hrow.
    apply list_elem_of_omap in Hrow as (l & _ & Hl). apply (parse_line_spec l), Hl.
  - unfold parse_lines. induction lines as [|l lines IH]; [reflexivity|].
    cbn [omap list_omap]. rewrite filter_cons.
    destruct (parse_line_spec l) as [Hnone _].
    destruct (parse_line l) as [row|].
    + rewrite decide_True; [cbn [length]; f_equal; exact IH|].
      destruct (le_lt_dec 5 (count_char "," l)) as [Hle|Hlt]; [exact Hle|].
      apply Hnone in Hlt. discriminate Hlt.
    + rewrite decide_False; [exact IH|].
      pose proof (proj1 Hnone eq_refl). lia.
Qed.

Lemma string_app_cons (x : ascii) (a b : string) : String x a +:+ b = String x (a +:+ b).
Proof. reflexivity. Qed.

Lemma string_app_assoc (a b c : string) : (a +:+ b) +:+ c = a +:+ (b +:+ c).
Proof. induction a as [|x a IH]; [reflexivity|]. rewrite !string_app_cons, IH. reflexivity. Qed.

Lemma string_snoc (s : string) :
  s = EmptyString \/ exists s' c, s = s' +:+ String c EmptyString.
Proof.
  induction s as [|a s IH]; [left; reflexivity|]. right.
  destruct IH as [->|(s' & c & ->)].
  - exists EmptyString, a. reflexivity.
  - exists (String a s'), c. reflexivity.
Qed.

Lemma rstrip_snoc_true (strip : ascii -> bool) (s : string) (c : ascii) :
  strip c = true ->
  rstrip_with strip (s +:+ String c EmptyString) = rstrip_with strip s.
Proof.
  intros Hc. induction s as [|a s IH].
  - change (EmptyString +:+ String c EmptyString) with (String c EmptyString).
    cbn [rstrip_with]. rewrite Hc. reflexivity.
  - rewrite string_app_cons. cbn [rstrip_with]. rewrite IH. reflexivity.
Qed.

Lemma rstrip_snoc_false (strip : ascii -> bool) (s : string) (c : ascii) :
  strip c = false ->
  rstrip_with strip (s +:+ String c EmptyString) = s +:+ String c EmptyString.
Proof.
  intros Hc. induction s as [|a s IH].
  - change (EmptyString +:+ String c EmptyString) with (String c EmptyString).
    cbn [rstrip_with]. rewrite Hc. reflexivity.
  - rewrite string_app_cons. cbn [rstrip_with]. rewrite IH. destruct s; reflexivity.
Qed.

Lemma rstrip_id (strip : ascii -> bool) (s : string) :
  (forall s' c, s = s' +:+ String c EmptyString -> strip c = false) ->
  rstrip_with strip s = s.
Proof.
  intros H. destruct (string_snoc s) as [->|(s' & c & ->)]; [reflexivity|].
  apply rstrip_snoc_false. apply (H s' c). reflexivity.
Qed.

Lemma split_no_sep (sep : ascii) (s : string) :
  count_char sep s = O -> split sep s = [s].
Proof.
  induction s as [|a s IH]; [reflexivity|]. cbn [count_char split].
  destruct (Ascii.eqb a sep); [discriminate|]. intros H. rewrite (IH H). reflexivity.
Qed.

Lemma split_append (sep : ascii) (s rest : string) :
  count_char sep s = O ->
  split sep (s +:+ String sep rest) = s :: split sep rest.
Proof.
  induction s as [|a s IH].
  - intros _. change (EmptyString +:+ String sep rest) with (String sep rest).
    cbn [split]. rewrite Ascii.eqb_refl. reflexivity.
  - rewrite string_app_cons. cbn [count_char split].
    destruct (Ascii.eqb a sep); [discriminate|]. intros H. rewrite (IH H). reflexivity.
Qed.

Lemma split_concat (sep : ascii) (fields : list string) :
  fields <> [] ->
  Forall (fun field => count_char sep field = O) fields ->
  split sep (String.concat (String sep EmptyString) fields) = fields.
Proof.
  intros Hne Hall. induction Hall as [|f fields Hf Hall IH]; [contradiction|].
  destruct fields as [|g fields].
  - cbn [String.concat]. apply split_no_sep, Hf.
  - change (String.concat (String sep EmptyString) (f :: g :: fields))
      with (f +:+ String sep EmptyString +:+ String.concat (String sep EmptyString) (g :: fields)).
    change (String sep EmptyString +:+ ?s) with (String sep s).
    rewrite (split_append _ _ _ Hf), IH by discriminate. reflexivity.
Qed.

(** X17: a record line of the WISDM file is read back into its fields.
    For six or more fields without commas, joined by commas and followed by
    a semicolon and the end of the line, the reader returns the first six
    fields, provided the record neither starts with white space nor ends in
    a semicolon of its own. *)
Theorem parse_line_record (fields : list string) :
  (6 <= length fields)%nat ->
  Forall (fun field => count_char "," field = O) fields ->
  (forall c t, String.concat "," fields = String c t -> isspace c = false) ->
  (forall s, String.concat "," fields <> s +:+ ";") ->
  parse_line (String.concat "," fields +:+ ";" +:+ String "010" EmptyString)
  = Some (take 6 fields).
Proof.
  intros Hlen Hall Hfirst Hlast. unfold parse_line.
  set (record := String.concat "," fields) in *.
  assert (lstrip_with isspace (record +:+ ";" +:+ String "010" EmptyString)
          = record +:+ ";" +:+ String "010" EmptyString) as ->.
  { destruct record as [|c t] eqn:E; [reflexivity|].
    rewrite string_app_cons. cbn [lstrip_with]. rewrite (Hfirst c t eq_refl). reflexivity. }
  rewrite <- string_app_assoc, rstrip_snoc_true by reflexivity.
  rewrite rstrip_snoc_false by reflexivity.
  rewrite rstrip_snoc_true by reflexivity.
  rewrite rstrip_id.
  - unfold record. rewrite split_concat; [|destruct fields; [cbn in Hlen; lia | discriminate]|exact Hall].
    destruct (Nat.leb_spec 6 (length fields)); [reflexivity | lia].
  - intros s' c E. destruct (Ascii.eqb_spec ";" c) as [<-|]; [|reflexivity].
    contradiction (Hlast s'). 
Qed.

(** A record of the raw file of the WISDM data set. *)
Lemma parse_line_record_witness :
  parse_line ("33,Jogging,49105962326000,-0.6946377,12.680544,0.50395286;"
              +:+ String "010" EmptyString)
  = Some ["33"; "Jogging"; "49105962326000"; "-0.6946377"; "12.680544"; "0.50395286"]%string.
Proof.
  apply (parse_line_record
           ["33"; "Jogging"; "49105962326000"; "-0.6946377"; "12.680544"; "0.50395286"]%string).
  - cbn [length]. lia.
  - repeat constructor.
  - intros c t H. injection H as <- _. reflexivity.
  - intros s H.
    assert (endswith "33,Jogging,49105962326000,-0.6946377,12.680544,0.50395286" ";" = true)
      as E by (apply endswith_append; exists s; exact H).
    vm_compute in E. discriminate E.
Defined.

End LineParser.

(** ** The synthetic data set *)

Section SyntheticData.

Variable generator : Type.
Variable seed : Z -> generator.
Variable normal : spec_float -> spec_float -> generator -> spec_float * generator.

Lemma draw_for_activity (a : string)
    (xyz : option (spec_float * spec_float * spec_float)) (g : generator) :
  In a activities ->
  exists v g', draw_for generator normal a xyz g = (Some v, g').
Proof.
  intros H. unfold activities in H. cbn [In] in H.
  destruct H as [<-|[<-|[<-|[<-|[<-|[<-|[<-|[]]]]]]]]; cbn;
    destruct (draw_xyz generator normal _ g) as [v g']; eauto.
Qed.

Lemma sessions_loop (a : string) (u : Z) (sessions : list Z) :
  In a activities ->
  forall data xyz g,
  exists rows xyz' g',
    fold_left (session_step generator normal a u) sessions (Some (data, xyz, g))
    = Some (data ++ rows, xyz', g') /\
    map (fun r : sample => (user r, activity r, timestamp r)) rows
    = map (fun session => (u, a, session)) sessions.
Proof.
  intros Ha. induction sessions as [|session sessions IH]; intros data xyz g.
  - exists [], xyz, g. rewrite app_nil_r. split; reflexivity.
  - cbn [fold_left]. unfold session_step at 2. cbn [mbind option_bind].
    destruct (draw_for_activity a xyz g Ha) as ([[x y] z] & g' & ->).
    cbn [mbind option_bind].
    destruct (IH (data ++ [ {| user := u; activity := a; timestamp := session;
                               col_x := x; col_y := y; col_z := z |} ]) (Some (x, y, z)) g')
      as (rows & xyz' & g'' & -> & Hk).
    eexists (_ :: rows), xyz', g''. split.
    + rewrite <- app_assoc. reflexivity.
    + cbn [map]. rewrite Hk. reflexivity.
Qed.

Lemma users_loop (a : string) (users sessions : list Z) :
  In a activities ->
  forall data xyz g,
  exists rows xyz' g',
    fold_left (fun st u => fold_left (session_step generator normal a u) sessions st)
      users (Some (data, xyz, g))
    = Some (data ++ rows, xyz', g') /\
    map (fun r : sample => (user r, activity r, timestamp r)) rows
    = flat_map (fun u => map (fun session => (u, a, session)) sessions) users.
Proof.
  intros Ha. induction users as [|u users IH]; intros data xyz g.
  - exists [], xyz, g. rewrite app_nil_r. split; reflexivity.
  - cbn [fold_left flat_map].
    destruct (sessions_loop a u sessions Ha data xyz g) as (rows1 & xyz1 & g1 & -> & Hk1).
    destruct (IH (data ++ rows1) xyz1 g1) as (rows & xyz' & g' & -> & Hk).
    exists (rows1 ++ rows), xyz', g'. split.
    + rewrite app_assoc. reflexivity.
    + rewrite map_app, Hk1, Hk. reflexivity.
Qed.

Lemma activities_loop (acts : list string) (users sessions : list Z) :
  (forall a, In a acts -> In a activities) ->
  forall data xyz g,
  exists rows xyz' g',
    fold_left (fun st a =>
                 fold_left (fun st u =>
                              fold_left (session_step generator normal a u) sessions st)
                   users st)
      acts (Some (data, xyz, g))
    = Some (data ++ rows, xyz', g') /\
    map (fun r : sample => (user r, activity r, timestamp r)) rows
    = flat_map (fun a =>
                  flat_map (fun u => map (fun session => (u, a, session)) sessions)
                    users) acts.
Proof.
  induction acts as [|a acts IH]; intros Hin data xyz g.
  - exists [], xyz, g. rewrite app_nil_r. split; reflexivity.
  - cbn [fold_left flat_map].
    destruct (users_loop a users sessions (Hin a (or_introl eq_refl)) data xyz g)
      as (rows1 & xyz1 & g1 & -> & Hk1).
    destruct (IH (fun b Hb => Hin b (or_intror Hb)) (data ++ rows1) xyz1 g1)
      as (rows & xyz' & g' & -> & Hk).
    exists (rows1 ++ rows), xyz', g'. split.
    + rewrite app_assoc. reflexivity.
    + rewrite map_app, Hk1, Hk. reflexivity.
Qed.

Lemma synthetic_rows_keys :
  exists rows,
    synthetic_rows generator seed normal = Some rows /\
    map (fun r : sample => (user r, activity r, timestamp r)) rows
    = flat_map (fun a =>
                  flat_map (fun u => map (fun session => (u, a, session)) (seqZ 0 100))
                    (seqZ 1 10)) activities.
Proof.
  unfold synthetic_rows.
  destruct (activities_loop activities (seqZ 1 10) (seqZ 0 100) (fun a H => H) [] None (seed 42))
    as (rows & xyz' & g' & -> & Hk).
  exists rows. split; [reflexivity | exact Hk].
Qed.


Lemma synthetic_data_keys :
  exists df,
    create_synthetic_data generator seed normal = Some df /\
    map (fun r : labelled => (user r, activity r, timestamp r, met_class r)) df =
    flat_map (fun '(a, c) =>
                flat_map (fun u => map (fun session => (u, a, session, c)) (seqZ 0 100))
                  (seqZ 1 10))
      [ ("Sitting", 0); ("Standing", 0); ("SlowWalk", 1); ("Walking", 2);
        ("Jogging", 3); ("Upstairs", 2); ("Downstairs", 2) ]%string.
Proof.
  destruct synthetic_rows_keys as (rows & Hrows & Hk).
  unfold create_synthetic_data. rewrite Hrows. cbn [mbind option_bind].
  eexists. split; [reflexivity|].
  unfold add_met_columns. rewrite map_map.
  transitivity (map (fun k : Z * string * Z =>
                       (k, get_met_class (series_map activity_met_mapping k.1.2)))
                  (map (fun r : sample => (user r, activity r, timestamp r)) rows)).
  { rewrite map_map. apply map_ext. reflexivity. }
  rewrite Hk.
  vm_compute. reflexivity.
Qed.

(** X18: the synthetic data set, whatever the random generator draws.  It
    has 7000 rows: for each of the seven activities in turn, for each of the
    users 1 to 10 in turn, 100 rows whose timestamps are the session numbers
    0 to 99.  Sitting and Standing are labelled 0 (Standing has 1.2 MET,
    which is below 1.5), SlowWalk 1, Walking, Upstairs and Downstairs 2 and
    Jogging 3, so that the four classes have 2000, 1000, 3000 and 1000
    rows. *)
Theorem synthetic_data_layout :
  exists df,
    create_synthetic_data generator seed normal = Some df /\
    map (fun r : labelled => (user r, activity r, timestamp r, met_class r)) df =
    flat_map (fun '(a, c) =>
                flat_map (fun u => map (fun session => (u, a, session, c)) (seqZ 0 100))
                  (seqZ 1 10))
      [ ("Sitting", 0); ("Standing", 0); ("SlowWalk", 1); ("Walking", 2);
        ("Jogging", 3); ("Upstairs", 2); ("Downstairs", 2) ]%string /\
    Z.of_nat (length df) = 7000 /\
    map (fun c => Z.of_nat (length (filter (fun r : labelled => met_class r = c) df)))
      [0; 1; 2; 3]
    = [2000; 1000; 3000; 1000].
Proof.
  destruct synthetic_data_keys as (df & Hdf & Hk).
  exists df. split; [exact Hdf|]. split; [exact Hk|]. split.
  - rewrite <- (length_map (fun r : labelled => (user r, activity r, timestamp r, met_class r))), Hk.
    vm_compute. reflexivity.
  - assert (forall c,
              length (filter (fun r : labelled => met_class r = c) df) =
              length (filter (fun k : Z * string * Z * Z => k.2 = c)
                        (map (fun r : labelled =>
                                (user r, activity r, timestamp r, met_class r)) df))) as Hc.
    { intros c.
      rewrite (filter_map_pres _ _ (fun r : labelled => met_class r = c)) by reflexivity.
      rewrite length_map. reflexivity. }
    cbn [map]. rewrite !Hc, Hk. vm_compute. reflexivity.
Qed.

Lemma traverse_of_Forall2 {A B} (f : A -> result B) (l : list A) (bs : list B) :
  Forall2 (fun a b => f a = Ok b) l bs -> traverse f l = Ok bs.
Proof.
  induction 1 as [|a b l bs Hab _ IH]; [reflexivity|].
  cbn [traverse]. rewrite Hab, IH. reflexivity.
Qed.

(** X19: the training set that the pipeline makes of the synthetic data
    with its window of 50 rows.  Each of the 70 groups of 100 rows gives the
    three windows that start at the rows 0, 25 and 50, so that there are
    210 rows of 16 features; the labels follow the users 1 to 10 and, for
    each user, the activities: 0, 0, 1, 2, 3, 2, 2, each three times.  All
    four classes occur, with 60, 30, 90 and 30 windows. *)
Theorem synthetic_data_windows :
  exists df features labels,
    create_synthetic_data generator seed normal = Some df /\
    create_features_from_dataframe df extract_features 50 = Ok (features, labels) /\
    length features = 210%nat /\
    Forall (fun fv => length fv = 16%nat) features /\
    labels = flat_map (fun u : Z => flat_map (fun c => repeat c 3) [0; 0; 1; 2; 3; 2; 2])
               (seqZ 1 10) /\
    map (fun c => length (filter (fun label => label = c) labels)) [0; 1; 2; 3]
    = [60; 30; 90; 30]%nat.
Proof.
  destruct synthetic_data_keys as (df & Hdf & Hk).
  destruct (create_features_rows df 50 ltac:(discriminate))
    as (windows & features & labels & Hw & H & Hn & Hl & H16).
  exists df, features, labels. split; [exact Hdf|]. split; [exact H|].
  destruct (create_features_labels _ _ _ _ _ H) as (windows' & Hw' & Hlabels & _).
  rewrite Hw in Hw'. injection Hw' as <-.
  apply traverse_of_Forall2 in Hlabels.
  set (f := fun r : labelled =>
              {| row := {| user := user r; activity := activity r; timestamp := timestamp r;
                           col_x := Float64.zero; col_y := Float64.zero;
                           col_z := Float64.zero |};
                 met_value := Float64.nan; met_class := met_class r |}).
  set (mk := fun k : Z * string * Z * Z =>
               {| row := {| user := k.1.1.1; activity := k.1.1.2; timestamp := k.1.2;
                            col_x := Float64.zero; col_y := Float64.zero;
                            col_z := Float64.zero |};
                  met_value := Float64.nan; met_class := k.2 |}).
  assert (map f df = map mk (map (fun r : labelled =>
                                    (user r, activity r, timestamp r, met_class r)) df)) as Hf
    by (rewrite map_map; reflexivity).
  rewrite Hk in Hf.
  pose proof (frame_windows_map f df 50 ltac:(intros r; split; reflexivity)) as Hfw.
  rewrite Hw, Hf in Hfw.
  assert (traverse first_label (map (map f) windows) = Ok labels) as Hl'.
  { rewrite traverse_map. rewrite <- Hlabels. apply traverse_ext.
    intros [|r t]; reflexivity. }
  assert (labels = flat_map (fun u : Z => flat_map (fun c => repeat c 3) [0; 0; 1; 2; 3; 2; 2])
                     (seqZ 1 10)) as Hlab.
  { assert ((ws ← frame_windows
                    (map mk
                       (flat_map (fun '(a, c) =>
                          flat_map (fun u => map (fun session => (u, a, session, c)) (seqZ 0 100))
                            (seqZ 1 10))
                          [ ("Sitting", 0); ("Standing", 0); ("SlowWalk", 1); ("Walking", 2);
                            ("Jogging", 3); ("Upstairs", 2); ("Downstairs", 2) ]%string)) 50;
             traverse first_label ws)
            = Ok (flat_map (fun u : Z => flat_map (fun c => repeat c 3) [0; 0; 1; 2; 3; 2; 2])
                    (seqZ 1 10))) as Hc by (vm_compute; reflexivity).
    rewrite Hfw in Hc. cbn [mbind result_bind] in Hc. rewrite Hl' in Hc.
    injection Hc as Hc. exact Hc. }
  assert (length features = 210%nat) as H210.
  { rewrite <- Hl, Hlab. vm_compute. reflexivity. }
  split; [exact H210|]. split; [exact H16|]. split; [exact Hlab|].
  rewrite Hlab. vm_compute. reflexivity.
Qed.

End SyntheticData.

(** ** Export and the end of the pipeline *)

Section ExportOutcomes.

Variable n_estimators : RandomForestClassifier -> Z.
Variable max_depth : RandomForestClassifier -> option Z.
Variable feature_importances_ : RandomForestClassifier -> list spec_float.

Variable train_test_split :
  list (list spec_float) -> list Z ->
  result (list (list spec_float) * list (list spec_float) * list Z * list Z).
Variable scaler_fit : list (list spec_float) -> StandardScaler.
Variable forest_fit : list (list spec_float) -> list Z -> RandomForestClassifier.

(** X20: [export_for_mobile] on every predictor.  Without a scaler it
    raises AttributeError, on a new predictor before any file is written and
    on one that holds a forest after the tree parameters are written.  With
    a scaler it returns and the scaler file holds the means and scales that
    [predict] divides by; the tree file is written exactly when there is a
    forest, with its classes.  No other file of the store changes. *)
Theorem export_for_mobile_outcomes (self : METPredictor) (fs : gmap string mobile_file)
    (output_dir : string) :
  (scaler self = None ->
   exists fs',
     export_for_mobile n_estimators max_depth feature_importances_ self fs output_dir
     = (fs', AttributeError "'NoneType' object has no attribute 'mean_'") /\
     fs' !! path_join output_dir "scaler_params.json"
       = fs !! path_join output_dir "scaler_params.json" /\
     (model self = None -> fs' = fs)) /\
  (forall s, scaler self = Some s ->
   exists fs',
     export_for_mobile n_estimators max_depth feature_importances_ self fs output_dir
     = (fs', Exported) /\
     fs' !! path_join output_dir "scaler_params.json"
     = Some (Scaler_params (mean_ s) (scale_ s))) /\
  (forall m, model self = Some m ->
   (export_for_mobile n_estimators max_depth feature_importances_ self fs output_dir).1 !! path_join output_dir "tree_params.json"
   = Some (Tree_params (n_estimators m) (max_depth m) (feature_importances_ m) (classes_ m))) /\
  (model self = None ->
   (export_for_mobile n_estimators max_depth feature_importances_ self fs output_dir).1 !! path_join output_dir "tree_params.json"
   = fs !! path_join output_dir "tree_params.json") /\
  (forall path,
     path <> path_join output_dir "tree_params.json" ->
     path <> path_join output_dir "scaler_params.json" ->
     (export_for_mobile n_estimators max_depth feature_importances_ self fs output_dir).1 !! path = fs !! path).
Proof.
  assert (path_join output_dir "tree_params.json" <> path_join output_dir "scaler_params.json")
    as Hne by (apply path_join_ne; discriminate).
  unfold export_for_mobile. repeat split.
  - intros Hs. rewrite Hs. eexists. split; [reflexivity|]. split.
    + destruct (model self); [|reflexivity]. rewrite lookup_insert_ne by exact Hne. reflexivity.
    + intros ->. reflexivity.
  - intros s Hs. rewrite Hs. eexists. split; [reflexivity|]. apply lookup_insert_eq.
  - intros m Hm. rewrite Hm. destruct (scaler self); cbn [fst].
    + rewrite lookup_insert_ne by (intros E; apply Hne; symmetry; exact E).
      apply lookup_insert_eq.
    + apply lookup_insert_eq.
  - intros Hm. rewrite Hm. destruct (scaler self); cbn [fst]; [|reflexivity].
    rewrite lookup_insert_ne by (intros E; apply Hne; symmetry; exact E). reflexivity.
  - intros path H1 H2. destruct (scaler self), (model self); cbn [fst];
      rewrite ?lookup_insert_ne by (intros E; subst path; contradiction); reflexivity.
Qed.


(** X21: the last steps of the training script.  Once [train] has returned
    on a predictor whose class ids are distinct, as those of a new
    predictor are, [save_model] returns and [export_for_mobile] returns,
    with the tree parameters and the scaler parameters written; the saved
    directory loads, into any predictor, and the loaded predictor predicts
    what the trained one predicts, never raising "Model not trained or
    loaded". *)
Theorem pipeline_after_training (self other self' : METPredictor)
    (X : list (list spec_float)) (y : list Z) (names : list string) (accuracy : Q)
    (fs : gmap string file) (mfs : gmap string mobile_file) (model_dir mobile_dir : string) :
  NoDup (map fst (met_classes self)) ->
  train train_test_split scaler_fit forest_fit self X y names = (self', Ok accuracy) ->
  exists m s fs' mfs' loaded,
    model self' = Some m /\ scaler self' = Some s /\
    save_model self' fs model_dir = (fs', Ok tt) /\
    export_for_mobile n_estimators max_depth feature_importances_ self' mfs mobile_dir
    = (mfs', Exported) /\
    mfs' !! path_join mobile_dir "tree_params.json"
    = Some (Tree_params (n_estimators m) (max_depth m) (feature_importances_ m) (classes_ m)) /\
    mfs' !! path_join mobile_dir "scaler_params.json"
    = Some (Scaler_params (mean_ s) (scale_ s)) /\
    load_model other fs' model_dir = (loaded, Ok tt) /\
    forall features,
      predict loaded features = predict self' features /\
      predict self' features <> Raise not_trained.
Proof.
  intros Hnd Ht.
  destruct (train_ok_state _ _ _ _ _ _ _ _ _ Ht) as (m & s & ->).
  exists m, s. unfold save_model, export_for_mobile.
  cbn [model scaler feature_names met_classes].
  eexists _, _, _. split; [reflexivity|]. split; [reflexivity|].
  split; [reflexivity|]. split; [reflexivity|].
  split.
  { rewrite lookup_insert_ne by (apply not_eq_sym, path_join_ne; discriminate).
    apply lookup_insert_eq. }
  split; [apply lookup_insert_eq|].
  split.
  - unfold load_model.
    rewrite (lookup_insert_ne _ (path_join model_dir "model_metadata.json"))
      by (apply path_join_ne; discriminate).
    rewrite (lookup_insert_ne _ (path_join model_dir "scaler.pkl"))
      by (apply path_join_ne; discriminate).
    rewrite lookup_insert_eq.
    rewrite (lookup_insert_ne _ (path_join model_dir "model_metadata.json"))
      by (apply path_join_ne; discriminate).
    rewrite lookup_insert_eq. rewrite lookup_insert_eq.
    cbn [md_met_classes md_feature_names]. rewrite (int_keys_str _ Hnd). reflexivity.
  - intros features. split; [reflexivity|].
    rewrite predict_not_trained_iff. cbn [model scaler]. intros [E|E]; discriminate E.
Qed.

End ExportOutcomes.

(** A new predictor, trained with the stand-in fitting procedures, saved to
    "models/trained" and exported to "models/mobile". *)
Lemma pipeline_after_training_witness :
  exists self' fs' loaded,
    train whole_split const_scaler_fit const_forest_fit init
      [repeat Float64.zero 16] [0] get_feature_names = (self', Ok 1%Q) /\
    save_model self' ∅ "models/trained" = (fs', Ok tt) /\
    load_model init fs' "models/trained" = (loaded, Ok tt) /\
    predict loaded (repeat Float64.zero 16) = predict self' (repeat Float64.zero 16).
Proof.
  destruct (pipeline_after_training (fun _ => 50) (fun _ => Some 10) (fun _ => [])
              whole_split const_scaler_fit const_forest_fit init init
              (train whole_split const_scaler_fit const_forest_fit init
                 [repeat Float64.zero 16] [0] get_feature_names).1
              [repeat Float64.zero 16] [0] get_feature_names 1%Q ∅ ∅
              "models/trained" "models/mobile")
    as (m & s & fs' & mfs' & loaded & _ & _ & Hsave & _ & _ & _ & Hload & Hp).
  - cbn [met_classes init map fst].
    repeat (apply NoDup_cons_2; [rewrite ?elem_of_cons, elem_of_nil; lia|]).
    apply NoDup_nil_2.
  - reflexivity.
  - eexists _, fs', loaded. split; [reflexivity|]. split; [exact Hsave|].
    split; [exact Hload|]. apply Hp.
Defined.

(** ** What the windows cover *)

Section WindowCoverage.

(** X23: how much of a group the windows leave out.  For a group of L rows
    and a window size W with 2 <= W <= L, every row whose index is at most
    L - W // 2 lies in a window: only the last W // 2 - 1 rows of a group,
    at most, enter no window. *)
Theorem windows_cover_group {A} (activity_data : list A) (w j : Z) :
  2 <= w <= Z.of_nat (length activity_data) ->
  0 <= j <= Z.of_nat (length activity_data) - w / 2 ->
  exists windows (k : nat) window,
    group_windows activity_data w = Ok windows /\
    windows !! k = Some window /\
    Z.of_nat k * (w / 2) <= j < Z.of_nat k * (w / 2) + w /\
    window !! Z.to_nat (j - Z.of_nat k * (w / 2)) = activity_data !! Z.to_nat j.
Proof.
  intros Hw Hj. set (len := Z.of_nat (length activity_data)) in *.
  assert (0 < w / 2) as Hs by (apply Z.div_str_pos; lia).
  assert (w / 2 <= w) as Hsw by (apply Z.div_le_upper_bound; lia).
  set (last := (len - w) / (w / 2)).
  assert (0 <= last) as Hl0 by (apply Z.div_pos; lia).
  pose proof (Z.mul_div_le (len - w) (w / 2) Hs) as Hm1.
  pose proof (Z.mul_succ_div_gt (len - w) (w / 2) Hs) as Hm2.
  fold last in Hm1, Hm2.
  set (k := Z.min (j / (w / 2)) last).
  assert (0 <= j / (w / 2)) as Hq0 by (apply Z.div_pos; lia).
  pose proof (Z.mul_div_le j (w / 2) Hs) as Hq1.
  pose proof (Z.mul_succ_div_gt j (w / 2) Hs) as Hq2.
  assert (0 <= k <= last) as Hk by (unfold k; lia).
  assert (k * (w / 2) <= j < k * (w / 2) + w) as Hin by (unfold k; nia).
  assert (k * (w / 2) + w <= len) as Hfit by nia.
  rewrite (group_windows_pos activity_data w) by lia.
  eexists _, (Z.to_nat k), _. split; [reflexivity|].
  rewrite Z2Nat.id by lia. split; [|split; [exact Hin|]].
  - rewrite map_fmap, list_lookup_fmap.
    rewrite (lookup_seq_lt _ _ (Z.to_nat k)); [reflexivity|].
    unfold window_count. fold len last. lia.
  - cbn [plus]. rewrite lookup_take_lt by lia. rewrite lookup_drop. f_equal. lia.
Qed.

(** Five rows and windows of four rows: the rows 0 to 3 are covered. *)
Lemma windows_cover_group_witness :
  exists windows (k : nat) window,
    group_windows [10; 11; 12; 13; 14] 4 = Ok windows /\
    windows !! k = Some window /\
    window !! Z.to_nat (3 - Z.of_nat k * 2) = Some 13.
Proof.
  destruct (windows_cover_group [10; 11; 12; 13; 14] 4 3)
    as (windows & k & window & Hg & Hk & _ & Hr).
  - cbn [length]. lia.
  - cbn [length]. change (4 / 2) with 2. lia.
  - exists windows, k, window. split; [exact Hg|]. split; [exact Hk|]. exact Hr.
Defined.

Lemma Forall2_and_l {A B} (R : A -> B -> Prop) (P : A -> Prop) (l : list A) (bs : list B) :
  Forall2 R l bs -> (forall a, In a l -> P a) -> Forall2 (fun a b => R a b /\ P a) l bs.
Proof.
  induction 1 as [|a b l bs Hab _ IH]; intros HP; constructor.
  - split; [exact Hab | apply HP; left; reflexivity].
  - apply IH. intros a' Ha'. apply HP. right. exact Ha'.
Qed.

(** X24: taking the label of the first row of a window loses nothing.  In a
    frame labelled from the activities, the rows of a window have one
    activity and hence one class: every row of the window carries the label
    that the window gets. *)
Theorem window_label_is_shared (mapping : gmap string spec_float) (rows : list sample)
    (extract : accel_data -> result (list spec_float)) (w : Z)
    (features : list (list spec_float)) (labels : list Z) :
  create_features_from_dataframe (add_met_columns mapping rows) extract w
  = Ok (features, labels) ->
  exists windows,
    frame_windows (add_met_columns mapping rows) w = Ok windows /\
    Forall2 (fun window label =>
               first_label window = Ok label /\
               forall r : labelled, In r window -> met_class r = label) windows labels.
Proof.
  intros H. destruct (create_features_labels _ _ _ _ _ H) as (windows & Hw & Hl & _).
  exists windows. split; [exact Hw|].
  destruct (Z.eq_dec (w / 2) 0) as [E|E].
  - assert (windows = []) as ->.
    { unfold frame_windows in Hw.
      destruct (groups (add_met_columns mapping rows)) as [|g gs].
      - cbn in Hw. injection Hw as <-. reflexivity.
      - cbn [traverse] in Hw.
        assert (group_windows g w = Raise (ValueError "range() arg 3 must not be zero")) as Hg
          by (unfold group_windows, py_range; rewrite E; reflexivity).
        rewrite Hg in Hw. discriminate Hw. }
    inversion Hl; subst. constructor.
  - destruct (frame_windows_spec (add_met_columns mapping rows) w E) as (windows' & Hw' & Hall).
    rewrite Hw in Hw'. injection Hw' as <-.
    assert (forall r : labelled, In r (add_met_columns mapping rows) ->
              met_class r = get_met_class (series_map mapping (activity r))) as Hclass.
    { intros r Hr. unfold add_met_columns in Hr. apply in_map_iff in Hr as (r0 & <- & _).
      reflexivity. }
    eapply Forall2_impl; [apply (Forall2_and_l _ _ _ _ Hl Hall)|].
    cbn beta. intros window label (Hfirst & Hlen & g & k & Hg & _ & Heq).
    split; [exact Hfirst|].
    destruct (groups_homogeneous _ g Hg) as (u & a & Hua).
    assert (forall r : labelled, In r window -> met_class r = get_met_class (series_map mapping a))
      as Hwin.
    { intros r Hr. rewrite Heq in Hr. apply in_take_drop in Hr.
      destruct (Hua r Hr) as (_ & <- & Hdf). apply Hclass, Hdf. }
    destruct window as [|r0 t]; [discriminate Hfirst|].
    cbn [first_label] in Hfirst. injection Hfirst as <-.
    intros r Hr. rewrite (Hwin r Hr), (Hwin r0 (or_introl eq_refl)). reflexivity.
Qed.

(** Two rows of one activity in one window. *)
Lemma window_label_is_shared_witness :
  exists windows,
    frame_windows (add_met_columns activity_met_mapping [biking 0; biking 1]) 2 = Ok windows /\
    Forall2 (fun window label => forall r : labelled, In r window -> met_class r = label)
      windows [3].
Proof.
  assert (exists features,
            create_features_from_dataframe
              (add_met_columns activity_met_mapping [biking 0; biking 1]) extract_features 2
            = Ok ([features], [3])) as [features H] by (eexists; vm_compute; reflexivity).
  destruct (window_label_is_shared activity_met_mapping [biking 0; biking 1]
              extract_features 2 [features] [3] H) as (windows & Hw & Hl).
  exists windows. split; [exact Hw|].
  eapply Forall2_impl; [exact Hl|]. cbn beta. intros window label [_ Hr]. exact Hr.
Defined.

End WindowCoverage.
